(** * Nature_Poster_Videos.py: the video selection and logging pipeline

    A shallow embedding of [src/Nature_Poster_Videos.py].  Every function of
    the script is a definition of the same name.  What the script reaches
    through its imports (the HTTP client, the JSON decoder, the Graph API
    client, the media search client, the clock, the random source) is a
    field of [World]; the sqlite connection, the page cursor of the search
    client and the calls made so far are the [State] that the monad [M]
    threads through.  The SQL statements of the script are given their
    meaning where it does not hang on how the columns of a table were
    declared; what sqlite answers otherwise is a field of [World] too.  A Python exception is the outcome [Raise]. *)

From Stdlib Require Import List String Ascii ZArith QArith Bool Lia Lqa DecimalString.
Import ListNotations.

Open Scope string_scope.
Open Scope list_scope.

(** ** Python strings

    A [str] is a Rocq [string]: text whose code points are below 256. *)

Definition str := string.

(** [str.lower] on one character: the letters A..Z and the Latin-1 capitals
    (all of U+00C0..U+00DE but the multiplication sign) move up by 32. *)
Definition lower_char (c : ascii) : ascii :=
  let n := nat_of_ascii c in
  if ((65 <=? n)%nat && (n <=? 90)%nat)
     || ((192 <=? n)%nat && (n <=? 222)%nat && negb (n =? 215)%nat)
  then ascii_of_nat (n + 32)
  else c.

Fixpoint lower (s : str) : str :=
  match s with
  | EmptyString => EmptyString
  | String c rest => String (lower_char c) (lower rest)
  end.

(** [s.split(sep)] for a separator of one character: every occurrence of the
    separator ends a piece, so two separators in a row give an empty piece
    and the empty string gives one empty piece. *)
Fixpoint split (sep : ascii) (s : str) : list str :=
  match s with
  | EmptyString => [EmptyString]
  | String c rest =>
      if Ascii.eqb c sep then EmptyString :: split sep rest
      else match split sep rest with
           | [] => [String c EmptyString]
           | piece :: pieces => String c piece :: pieces
           end
  end.

(** [needle in hay] for two strings: [needle] occurs in [hay] as a
    contiguous run of characters. *)
Fixpoint str_in (needle hay : str) : bool :=
  prefix needle hay
  || match hay with
     | EmptyString => false
     | String _ rest => str_in needle rest
     end.

(** [str(n)] for an integer. *)
Definition str_of_int (n : Z) : str := NilZero.string_of_int (Z.to_int n).

Definition space : ascii := ascii_of_nat 32.
Definition newline : str := String (ascii_of_nat 10) EmptyString.
Definition double_quote : str := String (ascii_of_nat 34) EmptyString.

(** The texts that [str] gives for integers: digits, after a minus sign or
    without one. *)
Definition is_digit (c : ascii) : bool :=
  let n := nat_of_ascii c in (48 <=? n)%nat && (n <=? 57)%nat.

Fixpoint all_digits (s : str) : bool :=
  match s with
  | EmptyString => true
  | String c rest => is_digit c && all_digits rest
  end.

Definition is_decimal (s : str) : bool :=
  match s with
  | EmptyString => false
  | String c rest =>
      if Ascii.eqb c "-"
      then match rest with EmptyString => false | _ => all_digits rest end
      else all_digits s
  end.

(** ** Values *)

(** What a sqlite cell holds and what [cursor.execute] takes as a binding. *)
Inductive sqlval : Type :=
| SqlNull
| SqlInt (n : Z)
| SqlReal (x : Q)
| SqlText (s : str).

Definition row := list sqlval.

(** [cell == s] for a cell read from the database and a Python string: only
    a text cell equals a string. *)
Definition sqlval_eq_str (cell : sqlval) (s : str) : bool :=
  match cell with
  | SqlText t => String.eqb t s
  | _ => false
  end.

(** What [json.loads] returns.  A float is the rational it stands for. *)
#[local] Set Warnings "-register-all".
Inductive json : Type :=
| JNull
| JBool (b : bool)
| JInt (n : Z)
| JFloat (x : Q)
| JStr (s : str)
| JList (items : list json)
| JDict (items : list (str * json)).

(** [d.get(key)] on the decoded object: [None] when the key is absent. *)
Fixpoint dict_get (items : list (str * json)) (key : str) : option json :=
  match items with
  | [] => None
  | (k, v) :: rest => if String.eqb k key then Some v else dict_get rest key
  end.

(** Python truth value of a decoded JSON value. *)
Definition truthy (v : json) : bool :=
  match v with
  | JNull => false
  | JBool b => b
  | JInt n => negb (n =? 0)%Z
  | JFloat x => negb (Qeq_bool x 0)
  | JStr s => negb (String.eqb s EmptyString)
  | JList items => match items with [] => false | _ => true end
  | JDict items => match items with [] => false | _ => true end
  end.

(** The exceptions the script can raise or let through. *)
Inductive exn : Type :=
| TypeError
| AttributeError
| IndexError
| JSONDecodeError
| RequestException
| GraphAPIError
| OperationalError
| ProgrammingError.

(** ** The candidate

    The attributes [process_videos] reads from one entry of
    [api.get_video_entries()]. *)
Record Video : Type := {
  description : str;
  videographer : str;
  id : Z;
  url : str;
  extension : str;
  link : str;
  duration : Z
}.

(** ** The database file

    A table is its column names and its rows.  The script uses three tables
    of [Nature_Bot_Data.db]; their schema is not part of the repository, so
    the column names are left open, and so is the way the columns were
    declared.  A table is [plain] when every column was declared by its name
    alone, without a type, a collation or a constraint: sqlite then stores
    every value as it is bound and compares it as it is stored, and refuses
    no row for what it holds. *)
Record Table : Type := {
  columns : list str;
  plain : bool;
  rows : list row
}.

Record Database : Type := {
  Bad_Words : Table;
  Photo_Search_Terms : Table;
  Nature_Bot_Logged_FB_Posts : Table
}.

Definition get_table (name : str) (d : Database) : option Table :=
  if String.eqb name "Bad_Words" then Some (Bad_Words d)
  else if String.eqb name "Photo_Search_Terms" then Some (Photo_Search_Terms d)
  else if String.eqb name "Nature_Bot_Logged_FB_Posts" then Some (Nature_Bot_Logged_FB_Posts d)
  else None.

Definition set_table (name : str) (t : Table) (d : Database) : Database :=
  if String.eqb name "Bad_Words" then
    {| Bad_Words := t; Photo_Search_Terms := Photo_Search_Terms d;
       Nature_Bot_Logged_FB_Posts := Nature_Bot_Logged_FB_Posts d |}
  else if String.eqb name "Photo_Search_Terms" then
    {| Bad_Words := Bad_Words d; Photo_Search_Terms := t;
       Nature_Bot_Logged_FB_Posts := Nature_Bot_Logged_FB_Posts d |}
  else if String.eqb name "Nature_Bot_Logged_FB_Posts" then
    {| Bad_Words := Bad_Words d; Photo_Search_Terms := Photo_Search_Terms d;
       Nature_Bot_Logged_FB_Posts := t |}
  else d.

(** sqlite takes the names of columns without regard to the case of the
    letters A to Z. *)
Definition sql_fold_char (c : ascii) : ascii :=
  let n := nat_of_ascii c in
  if (65 <=? n)%nat && (n <=? 90)%nat then ascii_of_nat (n + 32) else c.

Fixpoint sql_fold (s : str) : str :=
  match s with
  | EmptyString => EmptyString
  | String c rest => String (sql_fold_char c) (sql_fold rest)
  end.

Definition sql_name_eqb (a b : str) : bool :=
  String.eqb (sql_fold a) (sql_fold b).

Fixpoint column_index (name : str) (cols : list str) : option nat :=
  match cols with
  | [] => None
  | c :: rest =>
      if sql_name_eqb c name then Some 0%nat
      else option_map S (column_index name rest)
  end.

(** The text is the name of a column of the table. *)
Definition names_column (text : str) (cols : list str) : bool :=
  existsb (sql_name_eqb text) cols.

(** ** The world outside the script *)

Record World : Type := {
  (** [config.config_stuff['FB_Access_Token']] *)
  FB_Access_Token : str;
  (** [requests.get(url)]: the request fails, or answers with headers whose
      [content-length] is absent or a number of bytes. *)
  requests_get : str -> exn + option N;
  (** [requests.post(post_url, data=payload).text] *)
  requests_post : str -> list (str * str) -> exn + str;
  (** [json.loads(text)] *)
  json_loads : str -> exn + json;
  (** [fb.put_object(parent_object, connection_name, message)]: the Graph
      API client raises when the edit is refused. *)
  put_object : str -> str -> str -> exn + unit;
  (** [datetime.now().strftime(...)] *)
  datetime_now : str;
  (** [random.choice] on a list of the given length: the position taken. *)
  random_choice : nat -> nat;
  (** [str(x)] for a float. *)
  str_of_float : Q -> str;
  (** The entries of the search client for a term and a page number. *)
  video_entries : str -> nat -> list Video;
  (** What [cursor.execute(sql)] then [cursor.fetchall()] give on a database
      for a SELECT statement that is given no meaning here. *)
  sqlite_fetch : str -> Database -> exn + list row;
  (** What [cursor.execute('INSERT INTO <table> VALUES (?, ..., ?)', bindings)]
      makes of a database when the table is not plain: the declarations of
      its columns decide how the values are stored and whether the row is
      taken. *)
  sqlite_insert : str -> row -> Database -> exn + Database
}.

(** What the run does that can be seen from outside, oldest first. *)
Inductive event : Type :=
| Get (target : str)
| Post (target : str) (payload : list (str * str))
| PutObject (parent_object connection_name message : str)
| Print (text : str)
| SearchVideo (term : str) (page results_per_page : nat)
| SearchNextPage
| Commit
| Close.

(** The globals [connect] and [cursor], the cursor of the search client and
    the calls made so far.  [db] is what the open connection sees, [disk]
    what has been committed to the file. *)
Record State : Type := {
  db : Database;
  disk : Database;
  term : str;
  page : nat;
  trace : list event
}.

Definition emit (e : event) (st : State) : State :=
  {| db := db st; disk := disk st; term := term st; page := page st;
     trace := trace st ++ [e] |}.

Definition with_db (d : Database) (st : State) : State :=
  {| db := d; disk := disk st; term := term st; page := page st;
     trace := trace st |}.

(** ** The monad of the script: state and exceptions *)

Inductive outcome (A : Type) : Type :=
| Ret (a : A) (st : State)
| Raise (e : exn) (st : State).
Arguments Ret {A} a st.
Arguments Raise {A} e st.

Definition M (A : Type) : Type := State -> outcome A.

Definition ret {A} (a : A) : M A := fun st => Ret a st.
Definition raise {A} (e : exn) : M A := fun st => Raise e st.
Definition bind {A B} (m : M A) (k : A -> M B) : M B :=
  fun st =>
    match m st with
    | Ret a st' => k a st'
    | Raise e st' => Raise e st'
    end.
Definition lift {A} (r : exn + A) : M A :=
  match r with
  | inl e => raise e
  | inr a => ret a
  end.
Definition tell (e : event) : M unit := fun st => Ret tt (emit e st).
Definition print (text : str) : M unit := tell (Print text).

Declare Scope py_scope.
Delimit Scope py_scope with py.
Notation "x <- m ;; k" := (bind m (fun x => k))
  (at level 100, m at next level, right associativity) : py_scope.
Notation "m ;; k" := (bind m (fun _ => k))
  (at level 100, right associativity) : py_scope.
Open Scope py_scope.

Definition final_state {A} (o : outcome A) : State :=
  match o with
  | Ret _ st => st
  | Raise _ st => st
  end.

(** ** The sqlite cursor *)

(** The rows that [SELECT * FROM <table>] finds in a database. *)
Definition query_all (table : str) (d : Database) : exn + list row :=
  match get_table table d with
  | None => inl OperationalError
  | Some t => inr (rows t)
  end.

(** The statement that [id_is_in_db] builds by interpolation. *)
Definition select_ID_sql (table id_string : str) : str :=
  ("SELECT ID FROM " ++ table ++ " WHERE ID="
   ++ double_quote ++ id_string ++ double_quote)%string.

(** The rows that the statement of [id_is_in_db] finds.  On one of the three
    tables, when the table is plain, for an [id_string] that is the text of
    an integer and not the name of a column, sqlite reads the double-quoted
    token as a string, as it does by default for a token that names no
    column, and the rows are the [ID] cells of the rows whose [ID] is that
    text (a cell that is not a text is not equal to it).  A table without a
    column [ID] refuses the statement.  For a table that is not plain (the
    declared type of the column decides how the two sides are compared), for
    every other [id_string] (a quote character ends the token, the name of a
    column makes it that column) and for every other table name the
    statement is another one, and the answer is sqlite's. *)
Definition query_ID (w : World) (table id_string : str) (d : Database)
  : exn + list row :=
  match get_table table d with
  | None => sqlite_fetch w (select_ID_sql table id_string) d
  | Some t =>
      match column_index "ID" (columns t) with
      | None => inl OperationalError
      | Some i =>
          if plain t && is_decimal id_string
             && negb (names_column id_string (columns t))
          then
            inr (map (fun r => [nth i r SqlNull])
                     (filter (fun r => sqlval_eq_str (nth i r SqlNull) id_string)
                             (rows t)))
          else sqlite_fetch w (select_ID_sql table id_string) d
      end
  end.

(** [cursor.execute(<a SELECT>)] then [cursor.fetchall()]. *)
Definition fetchall (query : Database -> exn + list row) : M (list row) :=
  fun st => lift (query (db st)) st.

(** [cursor.execute('INSERT INTO <table> VALUES (?, ..., ?)', bindings)] with
    [placeholders] question marks.  sqlite refuses the statement when the
    table does not have that many columns, and the cursor refuses bindings
    that are not one per question mark; otherwise a plain table takes the
    row as it is bound, and for another table the outcome is sqlite's. *)
Definition insert_values (w : World) (table : str) (placeholders : nat)
  (bindings : row) : M unit :=
  fun st =>
    match get_table table (db st) with
    | None => Raise OperationalError st
    | Some t =>
        if negb (List.length (columns t) =? placeholders)%nat then
          Raise OperationalError st
        else if negb (List.length bindings =? placeholders)%nat then
          Raise ProgrammingError st
        else if plain t then
          Ret tt (with_db (set_table table
                             {| columns := columns t;
                                plain := plain t;
                                rows := rows t ++ [bindings] |}
                             (db st))
                          st)
        else
          match sqlite_insert w table bindings (db st) with
          | inl e => Raise e st
          | inr d => Ret tt (with_db d st)
          end
    end.

(** [connect.commit()] *)
Definition commit : M unit :=
  fun st =>
    Ret tt {| db := db st; disk := db st; term := term st; page := page st;
              trace := trace st ++ [Commit] |}.

(** [connect.close()] *)
Definition close : M unit := tell Close.

(** ** The functions of the script, in the order of the source *)

Definition no_badwords (sentence : list str) : M bool :=
  Bad_Words_from_DB <- fetchall (query_all "Bad_Words");;
  let Bad_Words_List := List.concat Bad_Words_from_DB in
  (* [for word in sentence: word.lower()] computes and drops each result *)
  let _ := map lower sentence in
  ret (negb (existsb (fun word => existsb (sqlval_eq_str word) sentence)
                     Bad_Words_List)).

(** The size in kilobytes of a [content-length] of [n] bytes.  The script
    computes it in floating point; here it is the exact quotient.  The only
    use of the size is the comparison with 1_000_000, which is a float
    itself, and rounding keeps the order: the float is at least 1_000_000
    exactly when the quotient is. *)
Definition kilobytes (n : N) : Q := (inject_Z (Z.of_N n) / 1000)%Q.

Definition get_file_size (w : World) (url_ : str) : M Q :=
  tell (Get url_);;
  requests_content_length <- lift (requests_get w url_);;
  match requests_content_length with
  | None => raise TypeError (* float(None) *)
  | Some n => ret (kilobytes n)
  end.

Definition extensions : list str := ["mp4"; "mov"; "wmv"; "avi"].

Definition acceptable_extension (video_extension : str) : bool :=
  existsb (fun e => str_in e video_extension) extensions.

Definition post_to_fb (w : World) (video_link : str) : M str :=
  let fb_page_id := "101111365975816" in
  let post_url : str :=
    ("https://graph-video.facebook.com/v15.0/" ++ fb_page_id ++ "/videos")%string in
  let payload := [("url", video_link); ("access_token", FB_Access_Token w)] in
  tell (Post post_url payload);;
  lift (requests_post w post_url payload).

(** Only a decoded object has [.get]; the result is [None] or the value
    under ['id']. *)
Definition get_post_id_from_json (w : World) (request : str)
  : M (option json) :=
  return_text_dict <- lift (json_loads w request);;
  match return_text_dict with
  | JDict items =>
      let id_from_json := dict_get items "id" in
      match id_from_json with
      | Some v => if truthy v then ret (Some v) else ret None
      | None => ret None
      end
  | _ => raise AttributeError
  end.

Definition edit_fb_post_caption (w : World)
  (post_id video_description video_permalink : str) : M unit :=
  let fb_page_id := "101111365975816" in
  let GitHub_Link := "https://github.com/Voltaic314/Nature-Poster" in
  let parent_object : str := (fb_page_id ++ "_" ++ post_id)%string in
  let message : str :=
    ("Description: " ++ video_description ++ newline ++ newline
     ++ "Pexels image link: " ++ video_permalink ++ newline ++ newline
     ++ "P.S. This Facebook post was created by a bot. To learn more about how it works,"
     ++ " check out the GitHub page here: " ++ GitHub_Link)%string in
  tell (PutObject parent_object EmptyString message);;
  lift (put_object w parent_object EmptyString message);;
  print "Caption has been edited to post successfully.".

Definition id_is_in_db (w : World) (table id_string : str) : M bool :=
  IDs_from_db <- fetchall (query_ID w table id_string);;
  match IDs_from_db with
  | [] => ret false
  | _ :: _ => ret true
  end.

Definition get_search_terms : M (list sqlval) :=
  Search_Terms_from_DB <- fetchall (query_all "Photo_Search_Terms");;
  ret (List.concat Search_Terms_from_DB).

Definition log_to_DB (w : World) (formatted_tuple : row) : M unit :=
  insert_values w "Nature_Bot_Logged_FB_Posts" 10 formatted_tuple.

(** From [post_to_fb] to the end of the loop body of [process_videos], for a
    candidate that passed the five [continue] guards.  [continue_] is the
    rest of the [for] loop.  [fb_post_id in post_to_fb_request] is a
    [TypeError] unless [fb_post_id] is a string. *)
Definition publish (w : World) (video : Video) (video_file_size : Q)
  (continue_ : M row) : M row :=
  let video_description := description video in
  let video_user := videographer video in
  let video_id := str_of_int (id video) in
  let video_permalink := url video in
  let video_link := link video in
  post_to_fb_request <- post_to_fb w video_link;;
  fb_post_id <- get_post_id_from_json w post_to_fb_request;;
  match fb_post_id with
  | Some (JStr fb_post_id) =>
      let successful_post := str_in fb_post_id post_to_fb_request in
      if negb successful_post then continue_
      else
        print "Photo was posted to FB";;
        let dt_string := datetime_now w in
        edit_fb_post_caption w fb_post_id video_description video_permalink;;
        print "Caption has been edited successfully.";;
        let data_to_log :=
          [SqlText dt_string; SqlText post_to_fb_request;
           SqlText video_description; SqlText video_user; SqlText video_id;
           SqlText video_permalink; SqlText (url video); SqlText video_link;
           SqlReal video_file_size] in
        log_to_DB w data_to_log;;
        print "Data has been logged to the database. All done!";;
        commit;;
        close;;
        (* break *)
        ret data_to_log
  | _ => raise TypeError
  end.

(** One turn of the [for] loop of [process_videos]. *)
Definition process_video (w : World) (video : Video) (continue_ : M row)
  : M row :=
  video_file_size <- get_file_size w (url video);;
  if negb (acceptable_extension (extension video)) then continue_
  else
    in_db <- id_is_in_db w "Nature_Bot_Logged_FB_Posts"
                         (str_of_int (id video));;
    if in_db : bool then continue_
    else if Qle_bool 1000000 video_file_size then continue_
    else if (1200 <=? duration video)%Z then continue_
    else
      clean <- no_badwords (split space (lower (description video)));;
      if negb clean then continue_
      else publish w video video_file_size continue_.

(** [data_to_log] starts as the empty list and is returned as it is when
    the loop runs out of videos. *)
Fixpoint process_videos (w : World) (videos : list Video) : M row :=
  match videos with
  | [] => ret []
  | video :: rest => process_video w video (process_videos w rest)
  end.

(** ** The run *)

(** [api.search_video(term, page=1, results_per_page=15)] *)
Definition search_video (t : str) : M unit :=
  fun st =>
    Ret tt {| db := db st; disk := disk st; term := t; page := 1;
              trace := trace st ++ [SearchVideo t 1 15] |}.

(** Modelled from the spec: the search client is an import that the
    repository does not hold; the spec gives it as [nextPage(token)], the
    next list of candidates or an empty one.  The cursor moves on by one
    page and [video_entries] of the world says what that page holds. *)
Definition search_next_page (st : State) : State :=
  {| db := db st; disk := disk st; term := term st; page := S (page st);
     trace := trace st ++ [SearchNextPage] |}.

(** [api.get_video_entries()] *)
Definition get_video_entries (w : World) (st : State) : list Video :=
  video_entries w (term st) (page st).

(** [str(x)] for a cell of the database. *)
Definition py_str (w : World) (x : sqlval) : str :=
  match x with
  | SqlNull => "None"
  | SqlInt n => str_of_int n
  | SqlReal q => str_of_float w q
  | SqlText s => s
  end.

(** [random.choice(seq)]: an [IndexError] on the empty list. *)
Definition choice (w : World) (seq : list sqlval) : M sqlval :=
  match nth_error seq (random_choice w (List.length seq)) with
  | Some x => ret x
  | None => raise IndexError
  end.

(** How a run stands after a number of turns of the [while] loop. *)
Inductive run_result : Type :=
| Finished (st : State)
| Crashed (e : exn) (st : State)
| Unfinished (st : State).

Definition run_state (r : run_result) : State :=
  match r with
  | Finished st => st
  | Crashed _ st => st
  | Unfinished st => st
  end.

(** [while not done], at most [fuel] turns.  [done] is the value returned by
    [process_videos]: the empty list is false, a filled tuple is true. *)
Fixpoint main_loop (w : World) (fuel : nat) (st : State) : run_result :=
  match fuel with
  | O => Unfinished st
  | S fuel' =>
      match process_videos w (get_video_entries w st) st with
      | Raise e st' => Crashed e st'
      | Ret done st' =>
          match done with
          | _ :: _ => Finished st'
          | [] => main_loop w fuel' (search_next_page st')
          end
      end
  end.

(** [sqlite3.connect] on the database file. *)
Definition connect (file : Database) : State :=
  {| db := file; disk := file; term := EmptyString; page := 0; trace := [] |}.

(** [main]: the connection, the search terms, one search for
    [str(random.choice(Search_Terms))], then the loop. *)
Definition main (w : World) (fuel : nat) (file : Database) : run_result :=
  match (Search_Terms <- get_search_terms;;
         t <- choice w Search_Terms;;
         search_video (py_str w t)) (connect file) with
  | Raise e st => Crashed e st
  | Ret _ st => main_loop w fuel st
  end.

(** ** What a run did *)

Definition is_post (e : event) : bool :=
  match e with Post _ _ => true | _ => false end.

Definition is_next_page (e : event) : bool :=
  match e with SearchNextPage => true | _ => false end.

(** The number of publish calls. *)
Definition publish_calls (st : State) : nat :=
  List.length (filter is_post (trace st)).

(** The number of further pages requested. *)
Definition next_page_requests (st : State) : nat :=
  List.length (filter is_next_page (trace st)).

(** The rows of the publish history. *)
Definition logged (d : Database) : list row :=
  rows (Nature_Bot_Logged_FB_Posts d).

(** The [ID] cells of the publish history. *)
Definition logged_ids (d : Database) : list sqlval :=
  match column_index "ID" (columns (Nature_Bot_Logged_FB_Posts d)) with
  | None => []
  | Some i => map (fun r => nth i r SqlNull) (logged d)
  end.

(** ** A decoder for JSON text

    The theorems below hold for every [json_loads].  The worked runs need a
    decoder that computes: this one reads the JSON grammar (objects, arrays,
    strings with their escapes, numbers, [true], [false], [null]) and, as
    Python does, keeps the last value of a repeated key.  An escape above
    U+00FF has no [str] here and is refused, and so are the constants NaN
    and Infinity that Python reads besides the grammar. *)
Module Decoder.

Definition dquote : ascii := ascii_of_nat 34.
Definition backslash : ascii := ascii_of_nat 92.

Definition is_ws (c : ascii) : bool :=
  let n := nat_of_ascii c in
  (n =? 32)%nat || (n =? 9)%nat || (n =? 10)%nat || (n =? 13)%nat.

Fixpoint skip_ws (s : str) : str :=
  match s with
  | String c rest => if is_ws c then skip_ws rest else s
  | EmptyString => s
  end.

Definition digit (c : ascii) : option Z :=
  let n := nat_of_ascii c in
  if (48 <=? n)%nat && (n <=? 57)%nat then Some (Z.of_nat (n - 48)) else None.

Definition hex (c : ascii) : option nat :=
  let n := nat_of_ascii c in
  if (48 <=? n)%nat && (n <=? 57)%nat then Some (n - 48)%nat
  else if (65 <=? n)%nat && (n <=? 70)%nat then Some (n - 55)%nat
  else if (97 <=? n)%nat && (n <=? 102)%nat then Some (n - 87)%nat
  else None.

Definition escape (c : ascii) : option ascii :=
  let n := nat_of_ascii c in
  if (n =? 34)%nat then Some dquote
  else if (n =? 92)%nat then Some backslash
  else if (n =? 47)%nat then Some (ascii_of_nat 47)
  else if (n =? 98)%nat then Some (ascii_of_nat 8)
  else if (n =? 102)%nat then Some (ascii_of_nat 12)
  else if (n =? 110)%nat then Some (ascii_of_nat 10)
  else if (n =? 114)%nat then Some (ascii_of_nat 13)
  else if (n =? 116)%nat then Some (ascii_of_nat 9)
  else None.

Definition cons_char (c : ascii) (r : option (str * str)) : option (str * str) :=
  match r with
  | Some (body, rest) => Some (String c body, rest)
  | None => None
  end.

(** The text after an opening quote: the string and what follows its
    closing quote. *)
Fixpoint string_body (s : str) : option (str * str) :=
  match s with
  | EmptyString => None
  | String c rest =>
      if Ascii.eqb c dquote then Some (EmptyString, rest)
      else if Ascii.eqb c backslash then
        match rest with
        | String e rest1 =>
            if Ascii.eqb e "u" then
              match rest1 with
              | String h1 (String h2 (String h3 (String h4 rest5))) =>
                  match hex h1, hex h2, hex h3, hex h4 with
                  | Some 0%nat, Some 0%nat, Some a, Some b =>
                      cons_char (ascii_of_nat (16 * a + b)) (string_body rest5)
                  | _, _, _, _ => None
                  end
              | _ => None
              end
            else
              match escape e with
              | Some x => cons_char x (string_body rest1)
              | None => None
              end
        | EmptyString => None
        end
      else if (nat_of_ascii c <? 32)%nat then None
      else cons_char c (string_body rest)
  end.

(** A run of digits: their value, how many they are, and the rest. *)
Fixpoint digits (acc : Z) (count : nat) (s : str) : Z * nat * str :=
  match s with
  | String c rest =>
      match digit c with
      | Some d => digits (10 * acc + d) (S count) rest
      | None => (acc, count, s)
      end
  | EmptyString => (acc, count, s)
  end.

Definition exponent (s : str) : option (Z * str) :=
  match s with
  | String c rest =>
      if Ascii.eqb c "e" || Ascii.eqb c "E" then
        let '(sign, rest1) :=
          match rest with
          | String "+" r => (1%Z, r)
          | String "-" r => ((-1)%Z, r)
          | _ => (1%Z, rest)
          end in
        match digits 0 0 rest1 with
        | (_, O, _) => None
        | (e, S _, rest2) => Some ((sign * e)%Z, rest2)
        end
      else Some (0%Z, s)
  | EmptyString => Some (0%Z, s)
  end.

Definition is_e (s : str) : bool :=
  match s with
  | String c _ => Ascii.eqb c "e" || Ascii.eqb c "E"
  | EmptyString => false
  end.

(** A number without its sign. *)
Definition unsigned_number (sign : Z) (s : str) : option (json * str) :=
  match s with
  | String c _ =>
      match digit c with
      | None => None
      | Some d0 =>
          let '(int_part, _, rest) :=
            if (d0 =? 0)%Z
            then match s with String _ r => (0%Z, 1%nat, r) | _ => (0%Z, 0%nat, s) end
            else digits 0 0 s in
          let frac :=
            match rest with
            | String "." r =>
                match digits 0 0 r with
                | (_, O, _) => None
                | (f, S n, r') => Some (Some (f, S n), r')
                end
            | _ => Some (None, rest)
            end in
          match frac with
          | None => None
          | Some (None, rest1) =>
              if is_e rest1 then
                match exponent rest1 with
                | Some (e, rest2) =>
                    Some (JFloat (inject_Z (sign * int_part) * Qpower 10 e)%Q, rest2)
                | None => None
                end
              else Some (JInt (sign * int_part), rest1)
          | Some (Some (f, n), rest1) =>
              match exponent rest1 with
              | Some (e, rest2) =>
                  let mantissa :=
                    (inject_Z (sign * (int_part * 10 ^ Z.of_nat n + f))
                     / inject_Z (10 ^ Z.of_nat n))%Q in
                  Some (JFloat (mantissa * Qpower 10 e)%Q, rest2)
              | None => None
              end
          end
      end
  | EmptyString => None
  end.

(** [d[k] = v] on the pairs of an object. *)
Fixpoint dict_set (items : list (str * json)) (k : str) (v : json)
  : list (str * json) :=
  match items with
  | [] => [(k, v)]
  | (k', v') :: rest =>
      if String.eqb k' k then (k', v) :: rest
      else (k', v') :: dict_set rest k v
  end.

Fixpoint value (fuel : nat) (s : str) : option (json * str) :=
  match fuel with
  | O => None
  | S fuel' =>
      match skip_ws s with
      | EmptyString => None
      | String c rest as s' =>
          if Ascii.eqb c dquote then
            match string_body rest with
            | Some (body, rest') => Some (JStr body, rest')
            | None => None
            end
          else if Ascii.eqb c "{" then
            match skip_ws rest with
            | String "}" rest' => Some (JDict [], rest')
            | rest' => members fuel' [] rest'
            end
          else if Ascii.eqb c "[" then
            match skip_ws rest with
            | String "]" rest' => Some (JList [], rest')
            | rest' => elements fuel' [] rest'
            end
          else if Ascii.eqb c "-" then unsigned_number (-1) rest
          else if prefix "null" s' then Some (JNull, substring 4 (String.length s' - 4) s')
          else if prefix "true" s' then Some (JBool true, substring 4 (String.length s' - 4) s')
          else if prefix "false" s' then Some (JBool false, substring 5 (String.length s' - 5) s')
          else unsigned_number 1 s'
      end
  end
with members (fuel : nat) (acc : list (str * json)) (s : str)
  : option (json * str) :=
  match fuel with
  | O => None
  | S fuel' =>
      match skip_ws s with
      | String c rest =>
          if Ascii.eqb c dquote then
            match string_body rest with
            | Some (key, rest1) =>
                match skip_ws rest1 with
                | String ":" rest2 =>
                    match value fuel' rest2 with
                    | Some (v, rest3) =>
                        match skip_ws rest3 with
                        | String "," rest4 => members fuel' (dict_set acc key v) rest4
                        | String "}" rest4 => Some (JDict (dict_set acc key v), rest4)
                        | _ => None
                        end
                    | None => None
                    end
                | _ => None
                end
            | None => None
            end
          else None
      | EmptyString => None
      end
  end
with elements (fuel : nat) (acc : list json) (s : str) : option (json * str) :=
  match fuel with
  | O => None
  | S fuel' =>
      match value fuel' s with
      | Some (v, rest) =>
          match skip_ws rest with
          | String "," rest' => elements fuel' (acc ++ [v]) rest'
          | String "]" rest' => Some (JList (acc ++ [v]), rest')
          | _ => None
          end
      | None => None
      end
  end.

(** [json.loads]: one value, then nothing but white space. *)
Definition loads (text : str) : exn + json :=
  match value (2 * String.length text + 2) text with
  | Some (v, rest) =>
      match skip_ws rest with
      | EmptyString => inr v
      | String _ _ => inl JSONDecodeError
      end
  | None => inl JSONDecodeError
  end.

End Decoder.

(** ** The five guards as one decision

    [process_videos] decides by a chain of [continue] statements.  The same
    chain, read as a function of the candidate, the world and the database,
    with the names the specification gives to the five rejections;
    [process_video_decision] below shows that the loop body follows it. *)

Inductive reason : Type :=
| bad_extension
| duplicate
| too_large
| too_long
| unsafe_content.

Inductive decision : Type :=
| Accept (video_file_size : Q)
| Reject (why : reason)
| FilterError (e : exn).

(** What [id_is_in_db] answers on a database. *)
Definition history_has (w : World) (table id_string : str) (d : Database)
  : exn + bool :=
  match query_ID w table id_string d with
  | inl e => inl e
  | inr [] => inr false
  | inr (_ :: _) => inr true
  end.

(** What [no_badwords] answers on a database. *)
Definition bad_word_free (sentence : list str) (d : Database) : exn + bool :=
  match query_all "Bad_Words" d with
  | inl e => inl e
  | inr Bad_Words_from_DB =>
      inr (negb (existsb (fun word => existsb (sqlval_eq_str word) sentence)
                         (List.concat Bad_Words_from_DB)))
  end.

Definition acceptance_filter (w : World) (d : Database) (video : Video)
  : decision :=
  match requests_get w (url video) with
  | inl e => FilterError e
  | inr None => FilterError TypeError
  | inr (Some n) =>
      if negb (acceptable_extension (extension video)) then Reject bad_extension
      else
        match history_has w "Nature_Bot_Logged_FB_Posts"
                          (str_of_int (id video)) d with
        | inl e => FilterError e
        | inr true => Reject duplicate
        | inr false =>
            if Qle_bool 1000000 (kilobytes n) then Reject too_large
            else if (1200 <=? duration video)%Z then Reject too_long
            else
              match bad_word_free (split space (lower (description video))) d with
              | inl e => FilterError e
              | inr false => Reject unsafe_content
              | inr true => Accept (kilobytes n)
              end
        end
  end.

Definition is_reject (x : decision) : bool :=
  match x with Reject _ => true | _ => false end.

(** ** The rules as the specification words them

    Two rules of the specification, written from its sentences, to be
    compared with what the script computes. *)

(** "candidate extension must case-sensitively match one of the allowed set" *)
Definition spec_extension_allowed (video_extension : str) : bool :=
  existsb (String.eqb video_extension) extensions.

Definition is_whitespace (c : ascii) : bool :=
  let n := nat_of_ascii c in
  ((9 <=? n)%nat && (n <=? 13)%nat) || (n =? 32)%nat.

Fixpoint split_when (p : ascii -> bool) (s : str) : list str :=
  match s with
  | EmptyString => [EmptyString]
  | String c rest =>
      if p c then EmptyString :: split_when p rest
      else match split_when p rest with
           | [] => [String c EmptyString]
           | piece :: pieces => String c piece :: pieces
           end
  end.

(** "tokenize description on whitespace": the maximal runs of characters
    that are not white space. *)
Definition whitespace_tokens (s : str) : list str :=
  filter (fun piece => negb (String.eqb piece EmptyString))
         (split_when is_whitespace s).

(** "lower-case each token, and reject if any token exactly matches any
    entry in the bad-word set; otherwise Accept": true when accepted. *)
Definition spec_content_safe (bad_words : list str) (video_description : str)
  : bool :=
  negb (existsb (fun token => existsb (String.eqb (lower token)) bad_words)
                (whitespace_tokens video_description)).

(** [sep.join(pieces)] for a separator of one character. *)
Fixpoint join (sep : ascii) (pieces : list str) : str :=
  match pieces with
  | [] => EmptyString
  | [piece] => piece
  | piece :: rest => (piece ++ String sep (join sep rest))%string
  end.

Fixpoint has_char (c : ascii) (s : str) : bool :=
  match s with
  | EmptyString => false
  | String c' rest => Ascii.eqb c' c || has_char c rest
  end.

(** ** A database file and worlds to run the script in *)
Module Demo.

Definition quoted (s : str) : str :=
  String Decoder.dquote (s ++ String Decoder.dquote EmptyString)%string.

Definition tab : str := String (ascii_of_nat 9) EmptyString.

(** [{"id": "4242"}] *)
Definition response_ok : str :=
  ("{" ++ quoted "id" ++ ": " ++ quoted "4242" ++ "}")%string.

(** [{"error": {"message": "Unsupported post request", "code": 100}}] *)
Definition response_error : str :=
  ("{" ++ quoted "error" ++ ": {" ++ quoted "message" ++ ": "
   ++ quoted "Unsupported post request" ++ ", " ++ quoted "code"
   ++ ": 100}}")%string.

(** An object whose [id] is the empty string. *)
Definition response_empty_id : str :=
  ("{" ++ quoted "id" ++ ": " ++ quoted EmptyString ++ "}")%string.

Definition cat_picture : Video :=
  {| description := "A cat on a sofa"; videographer := "Ana";
     id := 11; url := "https://www.pexels.com/video/11/";
     extension := "gif"; link := "https://videos.pexels.com/11.gif";
     duration := 30 |}.

Definition old_river : Video :=
  {| description := "A river in spring"; videographer := "Ben";
     id := 22; url := "https://www.pexels.com/video/22/";
     extension := "mp4"; link := "https://videos.pexels.com/22.mp4";
     duration := 45 |}.

Definition eagle : Video :=
  {| description := "An eagle over the hills"; videographer := "Cleo";
     id := 33; url := "https://www.pexels.com/video/33/";
     extension := "mp4"; link := "https://videos.pexels.com/33.mp4";
     duration := 60 |}.

Definition heron : Video :=
  {| description := "A heron at dawn"; videographer := "Dov";
     id := 44; url := "https://www.pexels.com/video/44/";
     extension := "mp4"; link := "https://videos.pexels.com/44.mp4";
     duration := 90 |}.

(** The eagle with the container type the media source reports for a file. *)
Definition eagle_file_type : Video :=
  {| description := description eagle; videographer := videographer eagle;
     id := id eagle; url := url eagle; extension := "video/mp4";
     link := link eagle; duration := duration eagle |}.

Definition with_duration (seconds : Z) (v : Video) : Video :=
  {| description := description v; videographer := videographer v;
     id := id v; url := url v; extension := extension v; link := link v;
     duration := seconds |}.

Definition with_description (text : str) (v : Video) : Video :=
  {| description := text; videographer := videographer v;
     id := id v; url := url v; extension := extension v; link := link v;
     duration := duration v |}.

(** Three plain tables; the history table has ten columns, as the [INSERT]
    statement of [log_to_DB] has ten question marks, and holds the record
    of video 22. *)
Definition file : Database :=
  {| Bad_Words :=
       {| columns := ["Word"]; plain := true;
          rows := [[SqlText "lovely"]] |};
     Photo_Search_Terms :=
       {| columns := ["Term"]; plain := true;
          rows := [[SqlText "birds"]; [SqlText "rivers"]] |};
     Nature_Bot_Logged_FB_Posts :=
       {| columns := ["Date"; "Response"; "Description"; "User"; "ID";
                      "Permalink"; "URL"; "Link"; "Size"; "Hash"];
          plain := true;
          rows := [[SqlText "10/07/2022 09:00:00"; SqlText "{}";
                    SqlText "A river in spring"; SqlText "Ben"; SqlText "22";
                    SqlText "https://www.pexels.com/video/22/";
                    SqlText "https://www.pexels.com/video/22/";
                    SqlText "https://videos.pexels.com/22.mp4";
                    SqlReal 5000; SqlText "0f0f"]] |} |}.

(** The same file with a bad-word table in capitals. *)
Definition file_capitals : Database :=
  {| Bad_Words :=
       {| columns := ["Word"]; plain := true;
          rows := [[SqlText "LOVELY"]] |};
     Photo_Search_Terms := Photo_Search_Terms file;
     Nature_Bot_Logged_FB_Posts := Nature_Bot_Logged_FB_Posts file |}.

(** A world given by the length every size probe reports, the answer of
    the publisher, the answer of the caption edit and the pages.  The
    tables of the demonstration are plain and hold texts where the script
    reads them, and the identifiers name no column: [str_of_float],
    [sqlite_fetch] and [sqlite_insert] are not asked, and answer anything. *)
Definition world (content_length : exn + option N) (post_response : exn + str)
  (caption_edit : exn + unit) (pages : nat -> list Video) : World :=
  {| FB_Access_Token := "token";
     requests_get := fun _ => content_length;
     requests_post := fun _ _ => post_response;
     json_loads := Decoder.loads;
     put_object := fun _ _ _ => caption_edit;
     datetime_now := "11/03/2026 10:00:00";
     random_choice := fun _ => 0%nat;
     str_of_float := fun _ => "0.0";
     video_entries := fun _ => pages;
     sqlite_fetch := fun _ _ => inl OperationalError;
     sqlite_insert := fun _ _ _ => inl OperationalError |}.

Definition one_page (videos : list Video) (p : nat) : list Video :=
  if (p =? 1)%nat then videos else [].

Definition five_megabytes : exn + option N := inr (Some 5000000%N).

(** Everything answers: one page of three candidates, the specification's
    end-to-end case. *)
Definition good : World :=
  world five_megabytes (inr response_ok) (inr tt)
        (one_page [cat_picture; old_river; eagle]).

(** The publisher answers with an error object. *)
Definition refused : World :=
  world five_megabytes (inr response_error) (inr tt)
        (one_page [eagle; heron]).

(** The caption edit is refused. *)
Definition uncaptioned : World :=
  world five_megabytes (inr response_ok) (inl GraphAPIError)
        (one_page [eagle]).

(** The size probe answers without a [content-length]. *)
Definition no_length : World :=
  world (inr None) (inr response_ok) (inr tt) (one_page [eagle; heron]).

(** Two pages on which nothing passes, then no more results: a bad
    extension and a duplicate, then a video that is too long and one with a
    bad word. *)
Definition two_rejected_pages (p : nat) : list Video :=
  match p with
  | 1%nat => [cat_picture; old_river]
  | 2%nat => [with_duration 1500 heron; with_description "A Lovely swan" heron]
  | _ => []
  end.

Definition nothing_accepted : World :=
  world five_megabytes (inr response_ok) (inr tt) two_rejected_pages.

(** The media source has nothing on any page. *)
Definition exhausted : World :=
  world five_megabytes (inr response_ok) (inr tt) (fun _ => []).

Definition started (d : Database) : State :=
  {| db := d; disk := d; term := "birds"; page := 1;
     trace := [SearchVideo "birds" 1 15] |}.


(** An object whose [id] is the number 4242. *)
Definition response_numeric_id : str :=
  ("{" ++ quoted "id" ++ ": 4242}")%string.


(** The publisher answers with a number for an identifier. *)
Definition numbered : World :=
  world five_megabytes (inr response_numeric_id) (inr tt)
        (one_page [eagle; heron]).

(** A record of ten values for video 55. *)
Definition ten_values : row :=
  [SqlText "11/03/2026 10:00:00"; SqlText "{}"; SqlText "A heron at dawn";
   SqlText "Dov"; SqlText "55"; SqlText "https://www.pexels.com/video/55/";
   SqlText "https://www.pexels.com/video/55/";
   SqlText "https://videos.pexels.com/55.mp4"; SqlReal 5000; SqlText "a1a1"].

(** The demonstration file without any search term. *)
Definition file_without_terms : Database :=
  {| Bad_Words := Bad_Words file;
     Photo_Search_Terms := {| columns := ["Term"]; plain := true; rows := [] |};
     Nature_Bot_Logged_FB_Posts := Nature_Bot_Logged_FB_Posts file |}.

(** The demonstration file with an empty text among the bad words. *)
Definition file_with_empty_word : Database :=
  {| Bad_Words := {| columns := ["Word"]; plain := true;
                     rows := [[SqlText "lovely"]; [SqlText EmptyString]] |};
     Photo_Search_Terms := Photo_Search_Terms file;
     Nature_Bot_Logged_FB_Posts := Nature_Bot_Logged_FB_Posts file |}.


End Demo.

(** ** Names for what the calls of a run carry *)

(** The address and the form that [post_to_fb] sends. *)
Definition post_url : str :=
  "https://graph-video.facebook.com/v15.0/101111365975816/videos".

Definition payload_of (w : World) (video_link : str) : list (str * str) :=
  [("url", video_link); ("access_token", FB_Access_Token w)].

(** The post and the caption that [edit_fb_post_caption] sends. *)
Definition parent_object_of (post_id : str) : str :=
  ("101111365975816" ++ "_" ++ post_id)%string.

Definition message_of (video : Video) : str :=
  ("Description: " ++ description video ++ newline ++ newline
   ++ "Pexels image link: " ++ url video ++ newline ++ newline
   ++ "P.S. This Facebook post was created by a bot. To learn more about how it works,"
   ++ " check out the GitHub page here: "
   ++ "https://github.com/Voltaic314/Nature-Poster")%string.

(** The tuple that [process_videos] hands to [log_to_DB]. *)
Definition data_to_log_of (w : World) (video : Video)
  (post_to_fb_request : str) (video_file_size : Q) : row :=
  [SqlText (datetime_now w); SqlText post_to_fb_request;
   SqlText (description video); SqlText (videographer video);
   SqlText (str_of_int (id video)); SqlText (url video);
   SqlText (url video); SqlText (link video); SqlReal video_file_size].

(** The publisher answered with an object whose [id] is a non-empty string
    that occurs in the answer: what [process_videos] takes for a successful
    post. *)
Definition valid_post_id (w : World) (post_to_fb_request post_id : str) : Prop :=
  exists items,
    json_loads w post_to_fb_request = inr (JDict items)
    /\ dict_get items "id" = Some (JStr post_id)
    /\ post_id <> EmptyString
    /\ str_in post_id post_to_fb_request = true.

(** The publisher answered with an object without a usable [id]: the key is
    absent or its value is false in Python's sense. *)
Definition lacks_post_id (w : World) (post_to_fb_request : str) : Prop :=
  exists items,
    json_loads w post_to_fb_request = inr (JDict items)
    /\ match dict_get items "id" with
       | None => True
       | Some v => truthy v = false
       end.

(** The state after the size probes of a list of candidates. *)
Definition probed (videos : list Video) (st : State) : State :=
  fold_left (fun s video => emit (Get (url video)) s) videos st.

(** ** More names for what a run did *)

Definition is_get (e : event) : bool :=
  match e with Get _ => true | _ => false end.

(** The number of size probes. *)
Definition get_calls (st : State) : nat :=
  List.length (filter is_get (trace st)).

Definition is_search (e : event) : bool :=
  match e with SearchVideo _ _ _ => true | _ => false end.

(** The number of calls of [search_video]. *)
Definition search_calls (st : State) : nat :=
  List.length (filter is_search (trace st)).

(** The state in which [main] enters its loop after searching for [t]. *)
Definition searching (file : Database) (t : str) : State :=
  {| db := file; disk := file; term := t; page := 1;
     trace := [SearchVideo t 1 15] |}.

(** The search terms [main] chooses from: the cells of
    [Photo_Search_Terms], row after row. *)
Definition search_terms_of (file : Database) : list sqlval :=
  List.concat (rows (Photo_Search_Terms file)).

(** The publisher answers the post of [video_link] with an object whose
    [id] is a non-empty string that does not occur in the text of the
    answer (an identifier written with escapes, for one). *)
Definition unseen_post_id (w : World) (video_link : str) : Prop :=
  exists resp items post_id,
    requests_post w post_url (payload_of w video_link) = inr resp
    /\ json_loads w resp = inr (JDict items)
    /\ dict_get items "id" = Some (JStr post_id)
    /\ post_id <> EmptyString
    /\ str_in post_id resp = false.

(** Every string identifier of an answer of the publisher occurs in the
    text of that answer. *)
Definition ids_occur (w : World) : Prop :=
  forall payload resp items post_id,
    requests_post w post_url payload = inr resp ->
    json_loads w resp = inr (JDict items) ->
    dict_get items "id" = Some (JStr post_id) ->
    str_in post_id resp = true.

Definition is_object (v : json) : bool :=
  match v with JDict _ => true | _ => false end.

Definition is_string (v : json) : bool :=
  match v with JStr _ => true | _ => false end.

(** * Properties *)

(** ** Strings *)

Lemma prefix_iff_app (needle hay : str) :
  prefix needle hay = true <-> exists b, hay = (needle ++ b)%string.
Proof.
  revert hay.
  induction needle as [|c needle IH]; intros hay.
  - split; [intros _; exists hay; reflexivity | destruct hay; reflexivity].
  - destruct hay as [|c' hay]; simpl.
    + split; [discriminate | intros [b Hb]; discriminate].
    + destruct (ascii_dec c c') as [->|Hne].
      * rewrite IH. split; intros [b Hb]; exists b; congruence.
      * split; [discriminate | intros [b Hb]; congruence].
Qed.

(** [str_in] is containment: the needle sits between two strings. *)
Lemma str_in_iff (needle hay : str) :
  str_in needle hay = true
  <-> exists a b, hay = (a ++ needle ++ b)%string.
Proof.
  induction hay as [|c hay IH]; cbn [str_in].
  - rewrite orb_false_r, prefix_iff_app. split.
    + intros [b Hb]. exists EmptyString, b. exact Hb.
    + intros [a [b Hab]]. destruct a; simpl in Hab.
      * exists b. exact Hab.
      * discriminate.
  - rewrite orb_true_iff, prefix_iff_app, IH. split.
    + intros [[b Hb] | [a [b Hab]]].
      * exists EmptyString, b. exact Hb.
      * exists (String c a), b. simpl. congruence.
    + intros [a [b Hab]]. destruct a as [|c' a]; simpl in Hab.
      * left. exists b. exact Hab.
      * right. exists a, b. congruence.
Qed.

Lemma str_in_refl (s : str) : str_in s s = true.
Proof.
  apply str_in_iff. exists EmptyString, EmptyString. simpl.
  induction s as [|c s IH]; simpl; congruence.
Qed.

Lemma lower_char_space (c : ascii) :
  Ascii.eqb (lower_char c) space = Ascii.eqb c space.
Proof.
  destruct c as [[] [] [] [] [] [] [] []]; reflexivity.
Qed.

(** Lower-casing the description and then splitting it gives the
    lower-cased pieces. *)
Lemma split_lower (s : str) :
  split space (lower s) = map lower (split space s).
Proof.
  induction s as [|c s IH]; simpl; [reflexivity|].
  rewrite lower_char_space, IH.
  destruct (Ascii.eqb c space); [reflexivity|].
  destruct (split space s); reflexivity.
Qed.

Lemma split_not_nil (sep : ascii) (s : str) : split sep s <> [].
Proof.
  destruct s as [|c s]; simpl; [discriminate|].
  destruct (Ascii.eqb c sep); [discriminate|].
  destruct (split sep s); discriminate.
Qed.

(** The pieces of [split], joined again by the separator, are the string. *)
Lemma join_split (sep : ascii) (s : str) : join sep (split sep s) = s.
Proof.
  induction s as [|c s IH]; [reflexivity|].
  simpl. destruct (Ascii.eqb_spec c sep) as [->|Hne].
  - pose proof (split_not_nil sep s) as Hnil.
    destruct (split sep s) as [|piece pieces]; [contradiction|].
    change (join sep (EmptyString :: piece :: pieces))
      with (String sep (join sep (piece :: pieces))).
    rewrite IH. reflexivity.
  - pose proof (split_not_nil sep s) as Hnil.
    destruct (split sep s) as [|piece pieces]; [contradiction|].
    destruct pieces as [|piece' pieces]; simpl in *; congruence.
Qed.

(** No piece of [split] holds the separator. *)
Lemma split_pieces (sep : ascii) (s : str) :
  Forall (fun piece => has_char sep piece = false) (split sep s).
Proof.
  induction s as [|c s IH]; simpl.
  - constructor; [reflexivity | constructor].
  - destruct (Ascii.eqb c sep) eqn:Hc.
    + constructor; [reflexivity | exact IH].
    + destruct (split sep s) as [|piece pieces].
      * constructor; [simpl; rewrite Hc; reflexivity | constructor].
      * inversion IH; subst. constructor; [|assumption].
        simpl. rewrite Hc. assumption.
Qed.

Lemma all_digits_of_uint (d : Decimal.uint) :
  all_digits (NilEmpty.string_of_uint d) = true.
Proof. induction d; simpl; auto. Qed.

(** [str] of an integer is a decimal text. *)
Lemma is_decimal_str_of_int (n : Z) : is_decimal (str_of_int n) = true.
Proof.
  assert (Huint : forall d,
             NilZero.string_of_uint d <> EmptyString
             /\ all_digits (NilZero.string_of_uint d) = true
             /\ (forall r, NilZero.string_of_uint d <> String "-" r)).
  { intros d. destruct d; simpl; repeat split;
      try discriminate; try apply all_digits_of_uint;
      intros r H; inversion H. }
  unfold str_of_int. destruct (Z.to_int n) as [d|d]; simpl;
    destruct (Huint d) as (Hne & Hall & Hminus);
    destruct (NilZero.string_of_uint d) as [|c r] eqn:E; try congruence.
  simpl. destruct (Ascii.eqb_spec c "-");
    [subst; exfalso; eapply Hminus; reflexivity | exact Hall].
Qed.

(** ** The state *)

Lemma publish_calls_emit (e : event) (st : State) :
  publish_calls (emit e st)
  = (publish_calls st + if is_post e then 1 else 0)%nat.
Proof.
  unfold publish_calls, emit; simpl.
  rewrite filter_app, length_app. simpl.
  destruct (is_post e); reflexivity.
Qed.

Lemma next_page_requests_emit (e : event) (st : State) :
  next_page_requests (emit e st)
  = (next_page_requests st + if is_next_page e then 1 else 0)%nat.
Proof.
  unfold next_page_requests, emit; simpl.
  rewrite filter_app, length_app. simpl.
  destruct (is_next_page e); reflexivity.
Qed.

(** ** The functions, one equation each *)

Lemma get_file_size_eq (w : World) (u : str) (st : State) :
  get_file_size w u st
  = match requests_get w u with
    | inl e => Raise e (emit (Get u) st)
    | inr None => Raise TypeError (emit (Get u) st)
    | inr (Some n) => Ret (kilobytes n) (emit (Get u) st)
    end.
Proof.
  unfold get_file_size, bind, tell, lift.
  destruct (requests_get w u) as [e|[n|]]; reflexivity.
Qed.

Lemma id_is_in_db_eq (w : World) (table id_string : str) (st : State) :
  id_is_in_db w table id_string st
  = lift (history_has w table id_string (db st)) st.
Proof.
  unfold id_is_in_db, history_has, bind, fetchall, lift.
  destruct (query_ID w table id_string (db st)) as [e|[|r rs]]; reflexivity.
Qed.

Lemma no_badwords_eq (sentence : list str) (st : State) :
  no_badwords sentence st = lift (bad_word_free sentence (db st)) st.
Proof.
  unfold no_badwords, bad_word_free, bind, fetchall, lift.
  destruct (query_all "Bad_Words" (db st)); reflexivity.
Qed.

(** The loop body follows the decision: a rejected candidate goes on to
    the rest of the loop, an accepted one is published, an error leaves the
    function; in each case after the size probe. *)
Lemma process_video_decision (w : World) (video : Video) (continue_ : M row)
  (st : State) :
  process_video w video continue_ st
  = match acceptance_filter w (db st) video with
    | Accept video_file_size =>
        publish w video video_file_size continue_ (emit (Get (url video)) st)
    | Reject _ => continue_ (emit (Get (url video)) st)
    | FilterError e => Raise e (emit (Get (url video)) st)
    end.
Proof.
  unfold process_video, acceptance_filter, bind at 1.
  rewrite get_file_size_eq.
  destruct (requests_get w (url video)) as [e|[n|]]; try reflexivity.
  destruct (acceptable_extension (extension video)); simpl; [|reflexivity].
  unfold bind at 1. rewrite id_is_in_db_eq. simpl.
  destruct (history_has _ _ _ (db st)) as [e|[|]]; simpl; try reflexivity.
  destruct (Qle_bool 1000000 (kilobytes n)); [reflexivity|].
  destruct (1200 <=? duration video)%Z; [reflexivity|].
  unfold bind at 1. rewrite no_badwords_eq. simpl.
  destruct (existsb _ _); reflexivity.
Qed.

(** ** Publishing *)

Section Run.

Variable w : World.

Lemma post_to_fb_eq (video_link : str) (st : State) :
  post_to_fb w video_link st
  = lift (requests_post w post_url (payload_of w video_link))
         (emit (Post post_url (payload_of w video_link)) st).
Proof. reflexivity. Qed.

Lemma get_post_id_from_json_eq (request : str) (st : State) :
  get_post_id_from_json w request st
  = match json_loads w request with
    | inl e => Raise e st
    | inr (JDict items) =>
        match dict_get items "id" with
        | Some v => Ret (if truthy v then Some v else None) st
        | None => Ret None st
        end
    | inr _ => Raise AttributeError st
    end.
Proof.
  unfold get_post_id_from_json, bind, lift, ret, raise.
  destruct (json_loads w request) as [e|[| | | | | |items]]; try reflexivity.
  destruct (dict_get items "id") as [v|]; [|reflexivity].
  destruct (truthy v); reflexivity.
Qed.

Lemma edit_fb_post_caption_eq (post_id : str) (video : Video)
  (st : State) :
  edit_fb_post_caption w post_id (description video) (url video) st
  = let st1 := emit (PutObject (parent_object_of post_id) EmptyString
                               (message_of video)) st in
    match put_object w (parent_object_of post_id) EmptyString
                     (message_of video) with
    | inl e => Raise e st1
    | inr _ =>
        Ret tt (emit (Print "Caption has been edited to post successfully.") st1)
    end.
Proof.
  unfold edit_fb_post_caption, bind, tell, lift, print, tell, ret, raise.
  change ("101111365975816" ++ "_" ++ post_id)%string
    with (parent_object_of post_id).
  change ("Description: " ++ description video ++ newline ++ newline
          ++ "Pexels image link: " ++ url video ++ newline ++ newline
          ++ "P.S. This Facebook post was created by a bot. To learn more about how it works,"
          ++ " check out the GitHub page here: "
          ++ "https://github.com/Voltaic314/Nature-Poster")%string
    with (message_of video).
  cbv zeta.
  destruct (put_object w (parent_object_of post_id) EmptyString (message_of video))
    as [e|[]]; reflexivity.
Qed.

Lemma get_table_logged (d : Database) :
  get_table "Nature_Bot_Logged_FB_Posts" d = Some (Nature_Bot_Logged_FB_Posts d).
Proof. reflexivity. Qed.

(** A tuple of nine values never fits the ten question marks of
    [log_to_DB]: the statement is refused and the database is as before. *)
Lemma log_to_DB_nine (formatted_tuple : row) (st : State) :
  List.length formatted_tuple = 9%nat ->
  log_to_DB w formatted_tuple st = Raise OperationalError st
  \/ log_to_DB w formatted_tuple st = Raise ProgrammingError st.
Proof.
  intros Hlen. unfold log_to_DB, insert_values.
  rewrite get_table_logged, Hlen.
  destruct (negb _); [left | right]; reflexivity.
Qed.

Ltac frame_facts :=
  repeat split;
  repeat (rewrite ?publish_calls_emit, ?next_page_requests_emit;
          cbn [is_post is_next_page]);
  try reflexivity; try lia.

Ltac raised := eexists; split; [right; eexists; reflexivity | frame_facts].

(** Whatever happens in [publish], it ends in the rest of the loop or in an
    exception, after exactly one publish call, and the database, the file
    and the page cursor are as before: no path through it appends a row. *)
Lemma publish_frame (video : Video) (video_file_size : Q)
  (continue_ : M row) (st : State) :
  exists st1,
    (publish w video video_file_size continue_ st = continue_ st1
     \/ exists e, publish w video video_file_size continue_ st = Raise e st1)
    /\ db st1 = db st /\ disk st1 = disk st
    /\ term st1 = term st /\ page st1 = page st
    /\ publish_calls st1 = S (publish_calls st)
    /\ next_page_requests st1 = next_page_requests st.
Proof.
  remember (publish w video video_file_size continue_ st) as o eqn:Ho.
  unfold publish in Ho. unfold bind at 1 in Ho. rewrite post_to_fb_eq in Ho.
  destruct (requests_post w post_url (payload_of w (link video))) as [e|resp];
    cbn [lift raise ret] in Ho; [subst o; raised|].
  unfold bind at 1 in Ho. rewrite get_post_id_from_json_eq in Ho.
  destruct (json_loads w resp) as [e|j]; [subst o; raised|].
  destruct j as [| | | | | |items]; try (subst o; raised).
  destruct (dict_get items "id") as [v|]; [|subst o; raised].
  destruct (truthy v) eqn:Hv; [|subst o; raised].
  destruct v as [| | | |pid| |]; try (subst o; raised).
  destruct (str_in pid resp); cbn [negb] in Ho.
  2:{ subst o. eexists; split; [left; reflexivity | frame_facts]. }
  unfold bind, print, tell in Ho. rewrite edit_fb_post_caption_eq in Ho.
  cbv zeta in Ho.
  destruct (put_object w (parent_object_of pid) EmptyString (message_of video))
    as [e|[]]; [subst o; raised|].
  match type of Ho with
  | context [log_to_DB _ ?t ?s] =>
      destruct (log_to_DB_nine t s eq_refl) as [Hlog|Hlog]; rewrite Hlog in Ho
  end; subst o; raised.
Qed.

(** ** The loop over one page *)

Lemma probed_frame (videos : list Video) (st : State) :
  db (probed videos st) = db st /\ disk (probed videos st) = disk st
  /\ term (probed videos st) = term st /\ page (probed videos st) = page st
  /\ publish_calls (probed videos st) = publish_calls st
  /\ next_page_requests (probed videos st) = next_page_requests st
  /\ trace (probed videos st) = trace st ++ map (fun v => Get (url v)) videos.
Proof.
  revert st. induction videos as [|v videos IH]; intros st.
  - simpl. rewrite app_nil_r. repeat split; reflexivity.
  - simpl probed. destruct (IH (emit (Get (url v)) st))
      as (Hdb & Hdisk & Hterm & Hpage & Hcalls & Hnext & Htrace).
    rewrite Hdb, Hdisk, Hterm, Hpage, Hcalls, Hnext, Htrace.
    rewrite publish_calls_emit, next_page_requests_emit. simpl.
    rewrite <- app_assoc. repeat split; lia.
Qed.

(** A page on which the filter rejects every candidate costs one size probe
    per candidate and returns the empty [data_to_log]. *)
Lemma process_videos_rejected (videos : list Video) (st : State) :
  Forall (fun v => is_reject (acceptance_filter w (db st) v) = true) videos ->
  process_videos w videos st = Ret [] (probed videos st).
Proof.
  revert st. induction videos as [|v videos IH]; intros st Hall.
  - reflexivity.
  - inversion Hall as [|? ? Hv Hrest]; subst.
    simpl process_videos. rewrite process_video_decision.
    destruct (acceptance_filter w (db st) v); try discriminate.
    apply (IH (emit (Get (url v)) st)). exact Hrest.
Qed.

(** [process_videos] never returns a filled tuple and never changes the
    database, the file or the page cursor. *)
Lemma process_videos_frame (videos : list Video) (st : State) :
  let o := process_videos w videos st in
  (forall done st', o = Ret done st' -> done = [])
  /\ db (final_state o) = db st /\ disk (final_state o) = disk st
  /\ term (final_state o) = term st /\ page (final_state o) = page st
  /\ next_page_requests (final_state o) = next_page_requests st
  /\ (publish_calls st <= publish_calls (final_state o))%nat.
Proof.
  revert st. induction videos as [|v videos IH]; intros st; cbv zeta.
  - simpl. repeat split; try reflexivity; try lia.
    intros done st' H. inversion H. reflexivity.
  - simpl process_videos. rewrite process_video_decision.
    pose proof (publish_calls_emit (Get (url v)) st) as Hc0.
    pose proof (next_page_requests_emit (Get (url v)) st) as Hn0.
    simpl in Hc0, Hn0.
    destruct (acceptance_filter w (db st) v) as [size|why|e].
    + destruct (publish_frame v size (process_videos w videos)
                              (emit (Get (url v)) st))
        as (st1 & [Heq|[e Heq]] & Hdb & Hdisk & Hterm & Hpage & Hcalls & Hnext);
        rewrite Heq.
      * destruct (IH st1)
          as (Hdone & Hdb' & Hdisk' & Hterm' & Hpage' & Hnext' & Hcalls').
        simpl in Hdb, Hdisk, Hterm, Hpage.
        repeat split; first [assumption | congruence | lia].
      * simpl in *. repeat split; first [congruence | lia].
    + destruct (IH (emit (Get (url v)) st))
        as (Hdone & Hdb' & Hdisk' & Hterm' & Hpage' & Hnext' & Hcalls').
      simpl in Hdb', Hdisk', Hterm', Hpage'.
      repeat split; first [assumption | congruence | lia].
    + simpl final_state. repeat split; first [congruence | lia | reflexivity].
Qed.

(** ** The loop over the pages *)

Lemma search_next_page_frame (st : State) :
  db (search_next_page st) = db st /\ disk (search_next_page st) = disk st
  /\ term (search_next_page st) = term st
  /\ page (search_next_page st) = S (page st)
  /\ publish_calls (search_next_page st) = publish_calls st
  /\ next_page_requests (search_next_page st) = S (next_page_requests st).
Proof.
  unfold search_next_page, publish_calls, next_page_requests. simpl.
  rewrite !filter_app, !length_app. simpl. repeat split; lia.
Qed.

(** The [while] loop never ends with [done] true, and never changes the
    database or the file. *)
Lemma main_loop_frame (fuel : nat) (st : State) :
  (forall st', main_loop w fuel st <> Finished st')
  /\ db (run_state (main_loop w fuel st)) = db st
  /\ disk (run_state (main_loop w fuel st)) = disk st.
Proof.
  revert st. induction fuel as [|fuel IH]; intros st.
  - simpl. repeat split; try reflexivity. discriminate.
  - simpl main_loop.
    pose proof (process_videos_frame (get_video_entries w st) st) as Hf.
    cbv zeta in Hf.
    destruct (process_videos w (get_video_entries w st) st) as [done st1|e st1].
    + destruct Hf as (Hdone & Hdb & Hdisk & _).
      rewrite (Hdone done st1 eq_refl).
      destruct (IH (search_next_page st1)) as (Hfin & Hdb' & Hdisk').
      destruct (search_next_page_frame st1) as (Hn1 & Hn2 & _).
      simpl in Hdb, Hdisk.
      repeat split; [exact Hfin | congruence | congruence].
    + destruct Hf as (_ & Hdb & Hdisk & _). simpl in *.
      repeat split; try assumption. discriminate.
Qed.

Lemma lift_Ret_inv {A} (r : exn + A) (a : A) (st st' : State) :
  lift r st = Ret a st' -> r = inr a.
Proof.
  destruct r as [e|a']; simpl; unfold raise, ret; intros H; inversion H.
  reflexivity.
Qed.

Lemma process_videos_app_rejected (pre videos : list Video)
  (st : State) :
  Forall (fun v => is_reject (acceptance_filter w (db st) v) = true) pre ->
  process_videos w (pre ++ videos) st = process_videos w videos (probed pre st).
Proof.
  revert st. induction pre as [|v pre IH]; intros st Hall.
  - reflexivity.
  - inversion Hall as [|? ? Hv Hrest]; subst.
    simpl app. simpl process_videos. rewrite process_video_decision.
    destruct (acceptance_filter w (db st) v); try discriminate.
    apply (IH (emit (Get (url v)) st)). exact Hrest.
Qed.

(** An exception in [process_videos] leaves [main] as it is. *)
Lemma main_loop_raise (fuel : nat) (st st' : State) (e : exn) :
  process_videos w (get_video_entries w st) st = Raise e st' ->
  main_loop w (S fuel) st = Crashed e st'.
Proof. intros H. simpl. rewrite H. reflexivity. Qed.

(** On a page whose first candidates are rejected, the first accepted
    candidate is published after one size probe per candidate so far. *)
Lemma process_videos_first_accepted (pre rest : list Video)
  (video : Video) (video_file_size : Q) (st : State) :
  Forall (fun v => is_reject (acceptance_filter w (db st) v) = true) pre ->
  acceptance_filter w (db st) video = Accept video_file_size ->
  process_videos w (pre ++ video :: rest) st
  = publish w video video_file_size (process_videos w rest)
            (emit (Get (url video)) (probed pre st)).
Proof.
  intros Hpre Hacc. rewrite process_videos_app_rejected by exact Hpre.
  simpl process_videos. rewrite process_video_decision.
  destruct (probed_frame pre st) as (Hdb & _). rewrite Hdb, Hacc. reflexivity.
Qed.

(** On a media source without results the [while] loop only asks for
    further pages. *)
Lemma main_loop_empty_pages (fuel : nat) (st : State) :
  (forall t p, video_entries w t p = []) ->
  exists st',
    main_loop w fuel st = Unfinished st'
    /\ publish_calls st' = publish_calls st
    /\ next_page_requests st' = (next_page_requests st + fuel)%nat.
Proof.
  intros Hempty. revert st. induction fuel as [|fuel IH]; intros st.
  - exists st. simpl. repeat split; lia.
  - simpl main_loop. unfold get_video_entries. rewrite Hempty. simpl.
    destruct (IH (search_next_page st)) as (st' & Hrun & Hcalls & Hnext).
    destruct (search_next_page_frame st) as (_ & _ & _ & _ & Hc & Hn).
    exists st'. split; [exact Hrun|]. split; lia.
Qed.

(** ** What [publish] does with the three answers that matter *)

Lemma publish_lacks_post_id (video : Video) (video_file_size : Q)
  (continue_ : M row) (st : State) (resp : str) :
  requests_post w post_url (payload_of w (link video)) = inr resp ->
  lacks_post_id w resp ->
  publish w video video_file_size continue_ st
  = Raise TypeError (emit (Post post_url (payload_of w (link video))) st).
Proof.
  intros Hpost (items & Hjson & Hid).
  unfold publish. unfold bind at 1. rewrite post_to_fb_eq, Hpost.
  cbn [lift ret]. unfold bind at 1.
  rewrite get_post_id_from_json_eq, Hjson.
  destruct (dict_get items "id") as [v|]; [rewrite Hid|]; reflexivity.
Qed.

Lemma publish_caption_refused (video : Video) (video_file_size : Q)
  (continue_ : M row) (st : State) (resp post_id : str) (e : exn) :
  requests_post w post_url (payload_of w (link video)) = inr resp ->
  valid_post_id w resp post_id ->
  put_object w (parent_object_of post_id) EmptyString (message_of video) = inl e ->
  publish w video video_file_size continue_ st
  = Raise e
      (emit (PutObject (parent_object_of post_id) EmptyString (message_of video))
         (emit (Print "Photo was posted to FB")
            (emit (Post post_url (payload_of w (link video))) st))).
Proof.
  intros Hpost (items & Hjson & Hid & Hne & Hin) Hput.
  unfold publish. unfold bind at 1. rewrite post_to_fb_eq, Hpost.
  cbn [lift ret]. unfold bind at 1.
  rewrite get_post_id_from_json_eq, Hjson, Hid.
  assert (Ht : truthy (JStr post_id) = true).
  { simpl. destruct (String.eqb_spec post_id EmptyString); [contradiction|reflexivity]. }
  rewrite Ht, Hin. cbn [negb].
  unfold bind at 1. unfold print at 1, tell at 1.
  unfold bind at 1. rewrite edit_fb_post_caption_eq. cbv zeta.
  rewrite Hput. reflexivity.
Qed.

Lemma publish_log_refused (video : Video) (video_file_size : Q)
  (continue_ : M row) (st : State) (resp post_id : str) :
  requests_post w post_url (payload_of w (link video)) = inr resp ->
  valid_post_id w resp post_id ->
  put_object w (parent_object_of post_id) EmptyString (message_of video) = inr tt ->
  let st' :=
    emit (Print "Caption has been edited successfully.")
      (emit (Print "Caption has been edited to post successfully.")
         (emit (PutObject (parent_object_of post_id) EmptyString (message_of video))
            (emit (Print "Photo was posted to FB")
               (emit (Post post_url (payload_of w (link video))) st)))) in
  publish w video video_file_size continue_ st = Raise OperationalError st'
  \/ publish w video video_file_size continue_ st = Raise ProgrammingError st'.
Proof.
  intros Hpost (items & Hjson & Hid & Hne & Hin) Hput st'.
  assert (Ht : truthy (JStr post_id) = true).
  { simpl. destruct (String.eqb_spec post_id EmptyString); [contradiction|reflexivity]. }
  assert (Heq : publish w video video_file_size continue_ st
                = (log_to_DB w (data_to_log_of w video resp video_file_size);;
                   print "Data has been logged to the database. All done!";;
                   commit;; close;;
                   ret (data_to_log_of w video resp video_file_size)) st').
  { unfold publish. unfold bind at 1. rewrite post_to_fb_eq, Hpost.
    cbn [lift ret]. unfold bind at 1.
    rewrite get_post_id_from_json_eq, Hjson, Hid, Ht, Hin. cbn [negb].
    unfold bind at 1. unfold print at 1, tell at 1.
    unfold bind at 1. rewrite edit_fb_post_caption_eq. cbv zeta.
    rewrite Hput. unfold bind at 1. unfold print at 1, tell at 1.
    reflexivity. }
  rewrite Heq.
  destruct (log_to_DB_nine (data_to_log_of w video resp video_file_size) st' eq_refl)
    as [Hlog|Hlog]; [left | right]; unfold bind at 1; rewrite Hlog; reflexivity.
Qed.

End Run.

(** ** The acceptance filter *)

(** What the filter answers once the probe gave a length, the extension is
    acceptable, the identifier is new and the description is clean: the two
    bounds decide. *)
Lemma acceptance_filter_bounds (w : World) (video : Video) (d : Database)
  (n : N) :
  requests_get w (url video) = inr (Some n) ->
  acceptable_extension (extension video) = true ->
  history_has w "Nature_Bot_Logged_FB_Posts" (str_of_int (id video)) d = inr false ->
  bad_word_free (split space (lower (description video))) d = inr true ->
  acceptance_filter w d video
  = if Qle_bool 1000000 (kilobytes n) then Reject too_large
    else if (1200 <=? duration video)%Z then Reject too_long
    else Accept (kilobytes n).
Proof.
  intros Hget Hext Hhist Hclean. unfold acceptance_filter.
  rewrite Hget, Hext, Hhist, Hclean. reflexivity.
Qed.

Lemma Qle_bool_false_iff (x y : Q) : Qle_bool x y = false <-> (y < x)%Q.
Proof.
  split.
  - intros H. apply Qnot_le_lt. intros Hle.
    apply Qle_bool_iff in Hle. congruence.
  - intros H. destruct (Qle_bool x y) eqn:E; [|reflexivity].
    apply Qle_bool_iff in E. lra.
Qed.

(** C9: the size and duration bounds are strict.  For a candidate that
    passes the extension, duplicate and content rules: with its duration
    below the bound, a size equal to the maximum of 1_000_000 is rejected
    and a size one unit below is accepted; with its size below the bound, a
    duration of 1200 is rejected and a duration of 1199 is accepted.
    Rejected means that the loop goes on with the next candidate, accepted
    that the candidate reaches the publish step. *)
Theorem size_and_duration_bounds_are_strict (w : World) (video : Video)
  (rest : list Video) (st : State) (n : N) :
  requests_get w (url video) = inr (Some n) ->
  acceptable_extension (extension video) = true ->
  id_is_in_db w "Nature_Bot_Logged_FB_Posts" (str_of_int (id video)) st
  = Ret false st ->
  no_badwords (split space (lower (description video))) st = Ret true st ->
  let st1 := emit (Get (url video)) st in
  let rejected :=
    process_videos w (video :: rest) st = process_videos w rest st1 in
  let accepted :=
    process_videos w (video :: rest) st
    = publish w video (kilobytes n) (process_videos w rest) st1 in
  ((duration video < 1200)%Z ->
     ((kilobytes n == 1000000)%Q -> rejected)
     /\ ((kilobytes n == 1000000 - 1)%Q -> accepted))
  /\ ((kilobytes n < 1000000)%Q ->
        (duration video = 1200%Z -> rejected)
        /\ (duration video = 1199%Z -> accepted)).
Proof.
  intros Hget Hext Hid Hclean st1 rejected accepted.
  rewrite id_is_in_db_eq in Hid. apply lift_Ret_inv in Hid.
  rewrite no_badwords_eq in Hclean. apply lift_Ret_inv in Hclean.
  pose proof (acceptance_filter_bounds w video (db st) n Hget Hext Hid Hclean)
    as Hdec.
  unfold rejected, accepted, st1. simpl process_videos.
  rewrite process_video_decision, Hdec.
  split.
  - intros Hdur. split; intros Hsize.
    + assert (Hle : Qle_bool 1000000 (kilobytes n) = true)
        by (apply Qle_bool_iff; lra).
      rewrite Hle. reflexivity.
    + assert (Hlt : Qle_bool 1000000 (kilobytes n) = false)
        by (apply Qle_bool_false_iff; lra).
      rewrite Hlt.
      destruct (Z.leb_spec 1200 (duration video)); [lia | reflexivity].
  - intros Hsize.
    assert (Hlt : Qle_bool 1000000 (kilobytes n) = false)
      by (apply Qle_bool_false_iff; lra).
    rewrite Hlt. split; intros Hdur; rewrite Hdur; reflexivity.
Qed.

(** C9, at work: the eagle is rejected at 1_000_000 kilobytes and reaches
    the publish step at 999_999; cut to 1200 seconds it is rejected, cut to
    1199 it reaches the publish step. *)
Lemma size_and_duration_bounds_at_work :
  let st := Demo.started Demo.file in
  let at_size n := Demo.world (inr (Some n)) (inr Demo.response_ok) (inr tt)
                              (Demo.one_page []) in
  let small := at_size 5000000%N in
  process_videos (at_size 1000000000%N) [Demo.eagle] st
  = process_videos (at_size 1000000000%N) [] (emit (Get (url Demo.eagle)) st)
  /\ process_videos (at_size 999999000%N) [Demo.eagle] st
     = publish (at_size 999999000%N) Demo.eagle (kilobytes 999999000)
               (process_videos (at_size 999999000%N) [])
               (emit (Get (url Demo.eagle)) st)
  /\ process_videos small [Demo.with_duration 1200 Demo.eagle] st
     = process_videos small [] (emit (Get (url Demo.eagle)) st)
  /\ process_videos small [Demo.with_duration 1199 Demo.eagle] st
     = publish small (Demo.with_duration 1199 Demo.eagle) (kilobytes 5000000)
               (process_videos small []) (emit (Get (url Demo.eagle)) st).
Proof.
  cbv zeta. split; [|split; [|split]].
  - exact (proj1 (proj1 (size_and_duration_bounds_are_strict
             (Demo.world (inr (Some 1000000000%N)) (inr Demo.response_ok)
                         (inr tt) (Demo.one_page []))
             Demo.eagle [] (Demo.started Demo.file) 1000000000%N
             eq_refl eq_refl eq_refl eq_refl) eq_refl) eq_refl).
  - exact (proj2 (proj1 (size_and_duration_bounds_are_strict
             (Demo.world (inr (Some 999999000%N)) (inr Demo.response_ok)
                         (inr tt) (Demo.one_page []))
             Demo.eagle [] (Demo.started Demo.file) 999999000%N
             eq_refl eq_refl eq_refl eq_refl) eq_refl) eq_refl).
  - exact (proj1 (proj2 (size_and_duration_bounds_are_strict
             (Demo.world (inr (Some 5000000%N)) (inr Demo.response_ok)
                         (inr tt) (Demo.one_page []))
             (Demo.with_duration 1200 Demo.eagle) [] (Demo.started Demo.file)
             5000000%N eq_refl eq_refl eq_refl eq_refl) eq_refl) eq_refl).
  - exact (proj2 (proj2 (size_and_duration_bounds_are_strict
             (Demo.world (inr (Some 5000000%N)) (inr Demo.response_ok)
                         (inr tt) (Demo.one_page []))
             (Demo.with_duration 1199 Demo.eagle) [] (Demo.started Demo.file)
             5000000%N eq_refl eq_refl eq_refl eq_refl) eq_refl) eq_refl).
Defined.

(** ** The post identifier *)

(** C10: when the decoded answer is an object whose [id] is absent or false
    in Python's sense (None and the empty string among them),
    [get_post_id_from_json] returns None; it returns the value under [id]
    when that value is present and true, and only then; so the empty string
    is never returned as an identifier. *)
Theorem get_post_id_from_json_none_unless_truthy (w : World) (request : str)
  (items : list (str * json)) (st : State) :
  json_loads w request = inr (JDict items) ->
  (match dict_get items "id" with
   | None => True
   | Some v => truthy v = false
   end -> get_post_id_from_json w request st = Ret None st)
  /\ (forall v, dict_get items "id" = Some v -> truthy v = true ->
        get_post_id_from_json w request st = Ret (Some v) st)
  /\ (forall v st', get_post_id_from_json w request st = Ret (Some v) st' ->
        dict_get items "id" = Some v /\ truthy v = true
        /\ v <> JStr EmptyString)
  /\ truthy JNull = false /\ truthy (JStr EmptyString) = false.
Proof.
  intros Hjson. rewrite get_post_id_from_json_eq, Hjson.
  split; [|split; [|split]].
  - destruct (dict_get items "id") as [v|]; [|reflexivity].
    intros Hv. rewrite Hv. reflexivity.
  - intros v Hid Hv. rewrite Hid, Hv. reflexivity.
  - intros v st' H. destruct (dict_get items "id") as [v'|]; [|discriminate].
    destruct (truthy v') eqn:Hv'; [|discriminate].
    inversion H; subst. repeat split; try assumption.
    intros ->. discriminate.
  - split; reflexivity.
Qed.

(** C10, at work: an object whose [id] is the empty string and an error
    object give None,
    the answer [{"id": "4242"}] gives the identifier. *)
Lemma get_post_id_from_json_at_work :
  let st := Demo.started Demo.file in
  get_post_id_from_json Demo.good Demo.response_empty_id st = Ret None st
  /\ get_post_id_from_json Demo.good Demo.response_error st = Ret None st
  /\ get_post_id_from_json Demo.good Demo.response_ok st
     = Ret (Some (JStr "4242")) st.
Proof.
  cbv zeta. split; [|split].
  - exact (proj1 (get_post_id_from_json_none_unless_truthy
                    Demo.good Demo.response_empty_id
                    [("id", JStr EmptyString)] (Demo.started Demo.file) eq_refl)
                 eq_refl).
  - exact (proj1 (get_post_id_from_json_none_unless_truthy
                    Demo.good Demo.response_error
                    [("error", JDict [("message", JStr "Unsupported post request");
                                      ("code", JInt 100)])]
                    (Demo.started Demo.file) eq_refl)
                 I).
  - exact (proj1 (proj2 (get_post_id_from_json_none_unless_truthy
                    Demo.good Demo.response_ok
                    [("id", JStr "4242")] (Demo.started Demo.file) eq_refl))
                 (JStr "4242") eq_refl eq_refl).
Defined.

(** ** The extension rule *)

Lemma acceptable_extension_iff (video_extension : str) :
  acceptable_extension video_extension = true
  <-> exists e a b,
        In e extensions /\ video_extension = (a ++ e ++ b)%string.
Proof.
  unfold acceptable_extension. rewrite existsb_exists. split.
  - intros (e & He & Hin). apply str_in_iff in Hin as (a & b & Hab).
    exists e, a, b. split; assumption.
  - intros (e & a & b & He & Hab). exists e. split; [exact He|].
    apply str_in_iff. exists a, b. exact Hab.
Qed.

Lemma process_video_bad_extension (w : World) (video : Video)
  (continue_ : M row) (st : State) :
  acceptable_extension (extension video) = false ->
  process_video w video continue_ st
  = (get_file_size w (url video);; continue_) st.
Proof.
  intros Hext. unfold process_video, bind. rewrite Hext. reflexivity.
Qed.

(** C3 (amended): the extension rule is containment.  A candidate passes it
    exactly when its extension holds one of mp4, mov, wmv, avi as a run of
    characters, case-sensitively; so the four exact members pass.  The size
    probe comes before the rule: a candidate whose extension holds none of
    the four and whose probe returned a length is rejected for its
    extension whatever its other attributes are, and the loop goes on with
    the next candidate; when the probe fails or answers without a length,
    the filter has an error for the candidate and the page ends with the
    exception. *)
Theorem extension_rule_is_containment (w : World) (video : Video)
  (rest : list Video) (st : State) :
  (acceptable_extension (extension video) = true
   <-> exists e a b,
         In e extensions /\ extension video = (a ++ e ++ b)%string)
  /\ (spec_extension_allowed (extension video) = true ->
      acceptable_extension (extension video) = true)
  /\ (acceptable_extension (extension video) = false ->
      process_videos w (video :: rest) st
      = (get_file_size w (url video);; process_videos w rest) st)
  /\ (forall n,
        requests_get w (url video) = inr (Some n) ->
        acceptable_extension (extension video) = false ->
        acceptance_filter w (db st) video = Reject bad_extension
        /\ process_videos w (video :: rest) st
           = process_videos w rest (emit (Get (url video)) st))
  /\ (forall e,
        requests_get w (url video) = inl e
        \/ (requests_get w (url video) = inr None /\ e = TypeError) ->
        acceptance_filter w (db st) video = FilterError e
        /\ process_videos w (video :: rest) st
           = Raise e (emit (Get (url video)) st)).
Proof.
  split; [apply acceptable_extension_iff|]. split; [|split; [|split]].
  - unfold spec_extension_allowed. rewrite existsb_exists.
    intros (e & He & Heq). apply String.eqb_eq in Heq. subst e.
    apply acceptable_extension_iff.
    exists (extension video), EmptyString, EmptyString. split; [exact He|].
    simpl. clear. induction (extension video) as [|c s IH]; simpl; congruence.
  - intros Hext. simpl process_videos.
    apply process_video_bad_extension. exact Hext.
  - intros n Hget Hext.
    assert (Hrej : acceptance_filter w (db st) video = Reject bad_extension).
    { unfold acceptance_filter. rewrite Hget, Hext. reflexivity. }
    split; [exact Hrej|].
    simpl process_videos. rewrite process_video_decision, Hrej. reflexivity.
  - intros e Hfail.
    assert (Herr : acceptance_filter w (db st) video = FilterError e).
    { unfold acceptance_filter.
      destruct Hfail as [Hget|[Hget ->]]; rewrite Hget; reflexivity. }
    split; [exact Herr|].
    simpl process_videos. rewrite process_video_decision, Herr. reflexivity.
Qed.

(** C3, at work: the picture of the cat has the extension gif; its probe
    answers with a length, the filter rejects it for the extension and the
    page goes on with the eagle. *)
Lemma extension_rule_at_work :
  acceptable_extension (extension Demo.cat_picture) = false
  /\ acceptance_filter Demo.good Demo.file Demo.cat_picture
     = Reject bad_extension
  /\ process_videos Demo.good [Demo.cat_picture; Demo.eagle]
                    (Demo.started Demo.file)
     = process_videos Demo.good [Demo.eagle]
         (emit (Get (url Demo.cat_picture)) (Demo.started Demo.file)).
Proof.
  split; [reflexivity|].
  exact (proj1 (proj2 (proj2 (proj2
           (extension_rule_is_containment
              Demo.good Demo.cat_picture [Demo.eagle]
              (Demo.started Demo.file)))))
           5000000%N eq_refl eq_refl).
Defined.

(** C3, the claim as worded fails.  [video/mp4] is not one of the four
    extensions, yet the rule lets it through, the filter accepts the
    candidate and the run publishes it.  And the picture of the cat, whose
    extension the rule turns away, is not rejected when its size probe
    answers without a content length: the filter has an error for it and
    the page ends in TypeError. *)
Lemma extension_outside_the_set_accepted :
  spec_extension_allowed "video/mp4" = false
  /\ acceptable_extension "video/mp4" = true
  /\ acceptance_filter Demo.good Demo.file Demo.eagle_file_type
     = Accept (kilobytes 5000000)
  /\ publish_calls
       (run_state
          (main (Demo.world Demo.five_megabytes (inr Demo.response_ok) (inr tt)
                            (Demo.one_page [Demo.eagle_file_type]))
                3 Demo.file)) = 1%nat
  /\ acceptable_extension (extension Demo.cat_picture) = false
  /\ acceptance_filter Demo.no_length Demo.file Demo.cat_picture
     = FilterError TypeError
  /\ process_videos Demo.no_length [Demo.cat_picture; Demo.eagle]
                    (Demo.started Demo.file)
     = Raise TypeError
         (emit (Get (url Demo.cat_picture)) (Demo.started Demo.file)).
Proof. vm_compute. repeat split. Qed.

(** ** The content-safety rule *)

Lemma existsb_sqlval_eq_str (word : sqlval) (sentence : list str) :
  existsb (sqlval_eq_str word) sentence = true
  <-> exists s, word = SqlText s /\ In s sentence.
Proof.
  rewrite existsb_exists. split.
  - intros (s & Hin & Heq). destruct word as [| | |t]; try discriminate.
    simpl in Heq. apply String.eqb_eq in Heq. subst t. exists s. split; auto.
  - intros (s & -> & Hin). exists s. split; [exact Hin|].
    simpl. apply String.eqb_refl.
Qed.

(** What [process_videos] asks of a description: split at each space, the
    pieces lower-cased, none of them equal to a text of the bad-word table. *)
Lemma no_badwords_of_description (video_description : str) (st : State) :
  exists clean,
    no_badwords (split space (lower video_description)) st = Ret clean st
    /\ (clean = false
        <-> exists token bad_word,
              In token (split space video_description)
              /\ In (SqlText bad_word) (List.concat (rows (Bad_Words (db st))))
              /\ lower token = bad_word).
Proof.
  rewrite no_badwords_eq. unfold bad_word_free, query_all. simpl get_table.
  cbn [lift ret]. eexists. split; [reflexivity|].
  rewrite negb_false_iff, existsb_exists, split_lower. split.
  - intros (word & Hword & Hex).
    apply existsb_sqlval_eq_str in Hex as (s & -> & Hin).
    apply in_map_iff in Hin as (token & <- & Htoken).
    exists token, (lower token). repeat split; assumption.
  - intros (token & bad_word & Htoken & Hbad & <-).
    exists (SqlText (lower token)). split; [exact Hbad|].
    apply existsb_sqlval_eq_str. exists (lower token). split; [reflexivity|].
    apply in_map. exact Htoken.
Qed.

(** C7 (amended): the content-safety rule splits the description at each
    space character (and at nothing else: joining the pieces with spaces
    gives the description back, and no piece holds a space), lower-cases
    each piece, and rejects exactly when some piece equals a text of the
    bad-word table, the table being taken as it is.  "a Lovely Eagle
    soaring" against the table [lovely] is rejected, "A LOVELY eagle"
    against the table [LOVELY] is accepted. *)
Theorem content_safety_splits_at_spaces (video_description : str) (st : State) :
  (exists clean,
     no_badwords (split space (lower video_description)) st = Ret clean st
     /\ (clean = false
         <-> exists token bad_word,
               In token (split space video_description)
               /\ In (SqlText bad_word) (List.concat (rows (Bad_Words (db st))))
               /\ lower token = bad_word))
  /\ join space (split space video_description) = video_description
  /\ Forall (fun piece => has_char space piece = false)
            (split space video_description)
  /\ no_badwords (split space (lower "a Lovely Eagle soaring"))
                 (Demo.started Demo.file)
     = Ret false (Demo.started Demo.file)
  /\ no_badwords (split space (lower "A LOVELY eagle"))
                 (Demo.started Demo.file_capitals)
     = Ret true (Demo.started Demo.file_capitals).
Proof.
  split; [apply no_badwords_of_description|].
  split; [apply join_split|].
  split; [apply split_pieces|].
  split; reflexivity.
Qed.

(** C7, the claim as worded fails: in "lovely<TAB>eagle" white space sets
    the token "lovely" apart, so the rule of the specification rejects the
    description against the table [lovely]; the script splits at spaces
    only, finds the one piece "lovely<TAB>eagle" and accepts. *)
Lemma tab_does_not_separate_tokens :
  whitespace_tokens ("lovely" ++ Demo.tab ++ "eagle")%string
  = ["lovely"; "eagle"]
  /\ spec_content_safe ["lovely"] ("lovely" ++ Demo.tab ++ "eagle")%string
     = false
  /\ split space (lower ("lovely" ++ Demo.tab ++ "eagle")%string)
     = [("lovely" ++ Demo.tab ++ "eagle")%string]
  /\ no_badwords (split space (lower ("lovely" ++ Demo.tab ++ "eagle")%string))
                 (Demo.started Demo.file)
     = Ret true (Demo.started Demo.file)
  /\ acceptance_filter Demo.good Demo.file
       (Demo.with_description ("lovely" ++ Demo.tab ++ "eagle")%string Demo.eagle)
     = Accept (kilobytes 5000000).
Proof. vm_compute. repeat split. Qed.

(** ** The duplicate check and the publish history *)



Lemma process_video_duplicate (w : World) (video : Video) (continue_ : M row)
  (st : State) :
  id_is_in_db w "Nature_Bot_Logged_FB_Posts" (str_of_int (id video)) st
  = Ret true st ->
  process_video w video continue_ st
  = (get_file_size w (url video);; continue_) st.
Proof.
  intros Hid. rewrite id_is_in_db_eq in Hid. apply lift_Ret_inv in Hid.
  transitivity (match get_file_size w (url video) st with
                | Ret _ st1 => continue_ st1
                | Raise e st1 => Raise e st1
                end); [|reflexivity].
  unfold process_video. unfold bind at 1. rewrite get_file_size_eq.
  destruct (requests_get w (url video)) as [e|[n|]]; try reflexivity.
  destruct (acceptable_extension (extension video)); [|reflexivity].
  cbn [negb]. unfold bind at 1. rewrite id_is_in_db_eq.
  change (db (emit (Get (url video)) st)) with (db st).
  rewrite Hid. reflexivity.
Qed.

(** [id_is_in_db] on a plain history table answers True for the text of an
    integer that names no column exactly when the text is the [ID] cell of
    one of its rows. *)
Lemma id_is_in_db_iff_logged (w : World) (id_string : str) (st : State) :
  plain (Nature_Bot_Logged_FB_Posts (db st)) = true ->
  is_decimal id_string = true ->
  names_column id_string (columns (Nature_Bot_Logged_FB_Posts (db st)))
  = false ->
  id_is_in_db w "Nature_Bot_Logged_FB_Posts" id_string st = Ret true st
  <-> In (SqlText id_string) (logged_ids (db st)).
Proof.
  intros Hplain Hdec Hname.
  rewrite id_is_in_db_eq. unfold history_has, query_ID, logged_ids, logged.
  rewrite get_table_logged.
  destruct (column_index "ID" (columns (Nature_Bot_Logged_FB_Posts (db st))))
    as [i|]; [|simpl; unfold raise; split; [discriminate | intros []]].
  rewrite Hplain, Hdec, Hname. simpl andb. cbv iota.
  set (hit := fun r : list sqlval => sqlval_eq_str (nth i r SqlNull) id_string).
  split.
  - intros H.
    destruct (filter hit (rows (Nature_Bot_Logged_FB_Posts (db st))))
      as [|r rs] eqn:Hf; [cbv [map lift ret] in H; discriminate|].
    assert (Hr : In r (filter hit (rows (Nature_Bot_Logged_FB_Posts (db st)))))
      by (rewrite Hf; left; reflexivity).
    apply filter_In in Hr as (Hin & Hhit). unfold hit in Hhit.
    apply in_map_iff. exists r. split; [|exact Hin].
    destruct (nth i r SqlNull) as [| | |t]; try discriminate.
    simpl in Hhit. apply String.eqb_eq in Hhit. congruence.
  - intros Hin. apply in_map_iff in Hin as (r & Hr & Hin).
    assert (Hf : In r (filter hit (rows (Nature_Bot_Logged_FB_Posts (db st))))).
    { apply filter_In. split; [exact Hin|]. unfold hit. rewrite Hr. simpl.
      apply String.eqb_refl. }
    destruct (filter hit (rows (Nature_Bot_Logged_FB_Posts (db st))));
      [destruct Hf | reflexivity].
Qed.





(** ** Whole runs *)

(** Every run that reaches the log write ends there.  The candidates before
    the accepted one are rejected, the publisher answers with a valid
    identifier and the caption edit succeeds: the run ends in an exception
    of the cursor after one publish call, with the database and the file as
    they were and no further page asked for. *)
Lemma accepted_candidate_run_stops_at_the_log_write (w : World) (fuel : nat)
  (st : State) (pre rest : list Video) (video : Video) (video_file_size : Q)
  (resp post_id : str) :
  get_video_entries w st = pre ++ video :: rest ->
  Forall (fun v => is_reject (acceptance_filter w (db st) v) = true) pre ->
  acceptance_filter w (db st) video = Accept video_file_size ->
  requests_post w post_url (payload_of w (link video)) = inr resp ->
  valid_post_id w resp post_id ->
  put_object w (parent_object_of post_id) EmptyString (message_of video)
  = inr tt ->
  exists e st',
    (e = OperationalError \/ e = ProgrammingError)
    /\ main_loop w (S fuel) st = Crashed e st'
    /\ publish_calls st' = S (publish_calls st)
    /\ next_page_requests st' = next_page_requests st
    /\ db st' = db st /\ disk st' = disk st.
Proof.
  intros Hpage Hpre Hacc Hpost Hvalid Hput.
  destruct (probed_frame pre st) as (Hdb & Hdisk & _ & _ & Hcalls & Hnext & _).
  pose proof (publish_log_refused w video video_file_size
                (process_videos w rest) (emit (Get (url video)) (probed pre st))
                resp post_id Hpost Hvalid Hput) as Hlog.
  cbv zeta in Hlog.
  assert (Hrun : forall e st',
             publish w video video_file_size (process_videos w rest)
                     (emit (Get (url video)) (probed pre st)) = Raise e st' ->
             main_loop w (S fuel) st = Crashed e st').
  { intros e st' H. apply main_loop_raise. rewrite Hpage.
    rewrite (process_videos_first_accepted w pre rest video video_file_size st)
      by assumption.
    exact H. }
  destruct Hlog as [Hlog|Hlog]; eexists; eexists;
    (split; [|split; [apply Hrun; exact Hlog|]]);
    try (left; reflexivity); try (right; reflexivity);
    rewrite !publish_calls_emit, !next_page_requests_emit, Hcalls, Hnext;
    simpl; repeat split; first [lia | assumption].
Qed.

(** Every run whose publisher answers without a usable identifier ends in
    TypeError at the membership test, after the publish call. *)
Lemma answer_without_id_run_stops (w : World) (fuel : nat) (st : State)
  (pre rest : list Video) (video : Video) (video_file_size : Q) (resp : str) :
  get_video_entries w st = pre ++ video :: rest ->
  Forall (fun v => is_reject (acceptance_filter w (db st) v) = true) pre ->
  acceptance_filter w (db st) video = Accept video_file_size ->
  requests_post w post_url (payload_of w (link video)) = inr resp ->
  lacks_post_id w resp ->
  main_loop w (S fuel) st
  = Crashed TypeError
      (emit (Post post_url (payload_of w (link video)))
         (emit (Get (url video)) (probed pre st))).
Proof.
  intros Hpage Hpre Hacc Hpost Hlacks.
  apply main_loop_raise. rewrite Hpage.
  rewrite (process_videos_first_accepted w pre rest video video_file_size st)
    by assumption.
  apply (publish_lacks_post_id w video video_file_size _ _ resp); assumption.
Qed.

(** C1, on the code: the end-to-end case of the specification.  The page
    holds a candidate with a bad extension, a duplicate and a candidate that
    passes, and the publisher answers with an identifier.  The run publishes
    once and edits the caption, then [log_to_DB] hands nine values to a
    statement of ten question marks: the run ends in ProgrammingError with
    no row written and nothing committed, and no further page is asked for. *)
Theorem end_to_end_run_stops_at_the_log_write :
  acceptance_filter Demo.good Demo.file Demo.cat_picture = Reject bad_extension
  /\ acceptance_filter Demo.good Demo.file Demo.old_river = Reject duplicate
  /\ acceptance_filter Demo.good Demo.file Demo.eagle
     = Accept (kilobytes 5000000)
  /\ valid_post_id Demo.good Demo.response_ok "4242"
  /\ exists st,
       main Demo.good 5 Demo.file = Crashed ProgrammingError st
       /\ publish_calls st = 1%nat
       /\ next_page_requests st = 0%nat
       /\ logged (db st) = logged Demo.file
       /\ disk st = Demo.file
       /\ List.length (data_to_log_of Demo.good Demo.eagle Demo.response_ok
                                      (kilobytes 5000000)) = 9%nat.
Proof.
  split; [reflexivity|]. split; [reflexivity|]. split; [reflexivity|].
  split.
  - exists [("id", JStr "4242")]. split; [reflexivity|]. split; [reflexivity|].
    split; [discriminate | reflexivity].
  - eexists. split; [vm_compute; reflexivity|].
    split; [reflexivity|]. split; [reflexivity|]. split; [reflexivity|].
    split; reflexivity.
Qed.

(** C4, on the code: the publisher answers with an error object, without an
    identifier.  [get_post_id_from_json] returns None, and the membership
    test of None in the answer is a TypeError: the run ends there, after
    the one publish call, and the next candidate of the page is never
    looked at. *)
Theorem answer_without_id_ends_the_run :
  lacks_post_id Demo.refused Demo.response_error
  /\ get_video_entries Demo.refused (Demo.started Demo.file)
     = [Demo.eagle; Demo.heron]
  /\ exists st,
       main Demo.refused 5 Demo.file = Crashed TypeError st
       /\ publish_calls st = 1%nat
       /\ trace st
          = [SearchVideo "birds" 1 15;
             Get (url Demo.eagle);
             Post post_url (payload_of Demo.refused (link Demo.eagle))].
Proof.
  split.
  - exists [("error", JDict [("message", JStr "Unsupported post request");
                            ("code", JInt 100)])].
    split; [reflexivity | exact I].
  - split; [reflexivity|].
    eexists. split; [vm_compute; reflexivity|]. split; reflexivity.
Qed.

(** C5 (amended): when every candidate of every page from the current one on
    is rejected by the filter, as it is when the media source has no more
    results and the pages are empty, the run makes no publish call and
    writes nothing, but it does not end: after any number of turns the
    [while] loop of [main] is still running, having asked for one further
    page per turn. *)
Theorem exhausted_source_keeps_the_loop_running (w : World) (fuel : nat)
  (st : State) :
  (forall p, (page st <= p)%nat ->
     Forall (fun v => is_reject (acceptance_filter w (db st) v) = true)
            (video_entries w (term st) p)) ->
  exists st',
    main_loop w fuel st = Unfinished st'
    /\ publish_calls st' = publish_calls st
    /\ db st' = db st /\ disk st' = disk st
    /\ next_page_requests st' = (next_page_requests st + fuel)%nat
    /\ page st' = (page st + fuel)%nat.
Proof.
  revert st. induction fuel as [|fuel IH]; intros st Hall.
  - exists st. simpl. repeat split; lia.
  - simpl main_loop. unfold get_video_entries.
    rewrite process_videos_rejected by (apply Hall; lia).
    set (st1 := probed (video_entries w (term st) (page st)) st).
    destruct (probed_frame (video_entries w (term st) (page st)) st)
      as (Hdb & Hdisk & Hterm & Hpage & Hcalls & Hnext & _).
    fold st1 in Hdb, Hdisk, Hterm, Hpage, Hcalls, Hnext.
    destruct (search_next_page_frame st1)
      as (Hdb' & Hdisk' & Hterm' & Hpage' & Hcalls' & Hnext').
    destruct (IH (search_next_page st1)) as (st' & Hrun & H1 & H2 & H3 & H4 & H5).
    { intros p Hp. rewrite Hdb', Hdb, Hterm', Hterm. apply Hall. lia. }
    exists st'. split; [exact Hrun|].
    repeat split; first [congruence | lia].
Qed.

(** C5, at work: two pages of rejected candidates and then no more
    results; after five turns the loop is still running. *)
Lemma exhausted_source_at_work :
  exists st',
    main_loop Demo.nothing_accepted 5 (Demo.started Demo.file) = Unfinished st'
    /\ publish_calls st' = publish_calls (Demo.started Demo.file)
    /\ db st' = db (Demo.started Demo.file)
    /\ disk st' = disk (Demo.started Demo.file)
    /\ next_page_requests st'
       = (next_page_requests (Demo.started Demo.file) + 5)%nat
    /\ page st' = (page (Demo.started Demo.file) + 5)%nat.
Proof.
  apply (exhausted_source_keeps_the_loop_running
           Demo.nothing_accepted 5 (Demo.started Demo.file)).
  intros p Hp. destruct p as [|[|[|p]]]; simpl; repeat constructor.
Defined.

(** C5, the claim as worded fails: the media source has no result on any
    page, and the run never ends: whatever the number of turns, [main] is
    still in its loop. *)
Lemma exhausted_run_never_ends :
  (forall t p, video_entries Demo.exhausted t p = [])
  /\ (forall fuel, exists st,
        main Demo.exhausted fuel Demo.file = Unfinished st
        /\ publish_calls st = 0%nat
        /\ next_page_requests st = fuel).
Proof.
  split; [reflexivity|]. intros fuel.
  change (main Demo.exhausted fuel Demo.file)
    with (main_loop Demo.exhausted fuel (Demo.started Demo.file)).
  destruct (main_loop_empty_pages Demo.exhausted fuel (Demo.started Demo.file))
    as (st & Hrun & Hcalls & Hnext); [reflexivity|].
  exists st. split; [exact Hrun|]. split; [exact Hcalls | exact Hnext].
Qed.

(** ** The size probe *)

Lemma process_videos_probe_fails (w : World) (pre rest : list Video)
  (video : Video) (e : exn) (st : State) :
  Forall (fun v => is_reject (acceptance_filter w (db st) v) = true) pre ->
  requests_get w (url video) = inl e
  \/ (requests_get w (url video) = inr None /\ e = TypeError) ->
  process_videos w (pre ++ video :: rest) st
  = Raise e (emit (Get (url video)) (probed pre st)).
Proof.
  intros Hpre Hfail. rewrite process_videos_app_rejected by exact Hpre.
  simpl process_videos. unfold process_video, bind.
  rewrite get_file_size_eq.
  destruct Hfail as [Hget|[Hget ->]]; rewrite Hget; reflexivity.
Qed.

(** C6 (amended): the size of every candidate is obtained by a network
    request, made before any rule is looked at.  When that request fails,
    or answers without a content length, the candidate is not accepted,
    nothing is published or written for it, and the exception ends the run:
    [main] stops with it, with the later candidates and pages left alone. *)
Theorem failed_size_probe_ends_the_run (w : World) (fuel : nat) (st : State)
  (pre rest : list Video) (video : Video) (e : exn) :
  get_video_entries w st = pre ++ video :: rest ->
  Forall (fun v => is_reject (acceptance_filter w (db st) v) = true) pre ->
  requests_get w (url video) = inl e
  \/ (requests_get w (url video) = inr None /\ e = TypeError) ->
  let st' := emit (Get (url video)) (probed pre st) in
  acceptance_filter w (db st) video = FilterError e
  /\ main_loop w (S fuel) st = Crashed e st'
  /\ trace st'
     = trace st ++ map (fun v => Get (url v)) pre ++ [Get (url video)]
  /\ publish_calls st' = publish_calls st
  /\ db st' = db st /\ disk st' = disk st.
Proof.
  intros Hpage Hpre Hfail st'.
  destruct (probed_frame pre st) as (Hdb & Hdisk & _ & _ & Hcalls & _ & Htrace).
  split; [|split; [|split; [|split; [|split]]]].
  - unfold acceptance_filter.
    destruct Hfail as [Hget|[Hget ->]]; rewrite Hget; reflexivity.
  - apply main_loop_raise. rewrite Hpage.
    apply process_videos_probe_fails; assumption.
  - unfold st'. simpl. rewrite Htrace, <- app_assoc. reflexivity.
  - unfold st'. rewrite publish_calls_emit, Hcalls. simpl. lia.
  - exact Hdb.
  - exact Hdisk.
Qed.

(** C6, at work: the probe of the eagle answers without a content length. *)
Lemma failed_size_probe_at_work :
  let st := Demo.started Demo.file in
  let st' := emit (Get (url Demo.eagle)) (probed [] st) in
  acceptance_filter Demo.no_length (db st) Demo.eagle = FilterError TypeError
  /\ main_loop Demo.no_length 5 st = Crashed TypeError st'
  /\ trace st'
     = trace st ++ map (fun v => Get (url v)) [] ++ [Get (url Demo.eagle)]
  /\ publish_calls st' = publish_calls st
  /\ db st' = db st /\ disk st' = disk st.
Proof.
  exact (failed_size_probe_ends_the_run
           Demo.no_length 4 (Demo.started Demo.file) [] [Demo.heron]
           Demo.eagle TypeError eq_refl (Forall_nil _)
           (or_intror (conj eq_refl eq_refl))).
Defined.

(** C6, the claim as worded fails: the probe of the first candidate answers
    without a content length, and the run ends in TypeError; the second
    candidate of the page was never looked at. *)
Lemma missing_content_length_ends_the_run :
  get_video_entries Demo.no_length (Demo.started Demo.file)
  = [Demo.eagle; Demo.heron]
  /\ requests_get Demo.no_length (url Demo.eagle) = inr None
  /\ exists st,
       main Demo.no_length 5 Demo.file = Crashed TypeError st
       /\ trace st = [SearchVideo "birds" 1 15; Get (url Demo.eagle)].
Proof.
  split; [reflexivity|]. split; [reflexivity|].
  eexists. split; [vm_compute; reflexivity | reflexivity].
Qed.

(** ** The caption edit *)

(** C8 (amended): when the publish call has succeeded and the caption edit
    that follows is refused, the publish is not unwound, but the exception
    of the edit leaves [process_videos] before [log_to_DB] is reached: no
    record is written, nothing is committed, and the run ends with that
    exception. *)
Theorem refused_caption_edit_ends_the_run (w : World) (fuel : nat) (st : State)
  (pre rest : list Video) (video : Video) (video_file_size : Q)
  (resp post_id : str) (e : exn) :
  get_video_entries w st = pre ++ video :: rest ->
  Forall (fun v => is_reject (acceptance_filter w (db st) v) = true) pre ->
  acceptance_filter w (db st) video = Accept video_file_size ->
  requests_post w post_url (payload_of w (link video)) = inr resp ->
  valid_post_id w resp post_id ->
  put_object w (parent_object_of post_id) EmptyString (message_of video)
  = inl e ->
  let st' :=
    emit (PutObject (parent_object_of post_id) EmptyString (message_of video))
      (emit (Print "Photo was posted to FB")
         (emit (Post post_url (payload_of w (link video)))
            (emit (Get (url video)) (probed pre st)))) in
  main_loop w (S fuel) st = Crashed e st'
  /\ publish_calls st' = S (publish_calls st)
  /\ db st' = db st /\ disk st' = disk st.
Proof.
  intros Hpage Hpre Hacc Hpost Hvalid Hput st'.
  destruct (probed_frame pre st) as (Hdb & Hdisk & _ & _ & Hcalls & _).
  split; [|split; [|split]].
  - apply main_loop_raise. rewrite Hpage.
    rewrite (process_videos_first_accepted w pre rest video video_file_size st)
      by assumption.
    apply (publish_caption_refused w video video_file_size _ _ resp post_id e);
      assumption.
  - unfold st'. rewrite !publish_calls_emit, Hcalls. simpl. lia.
  - exact Hdb.
  - exact Hdisk.
Qed.

(** C8, at work: the eagle is accepted and published, the caption edit is
    refused. *)
Lemma refused_caption_edit_at_work :
  let st := Demo.started Demo.file in
  let st' :=
    emit (PutObject (parent_object_of "4242") EmptyString (message_of Demo.eagle))
      (emit (Print "Photo was posted to FB")
         (emit (Post post_url (payload_of Demo.uncaptioned (link Demo.eagle)))
            (emit (Get (url Demo.eagle)) (probed [] st)))) in
  main_loop Demo.uncaptioned 5 st = Crashed GraphAPIError st'
  /\ publish_calls st' = S (publish_calls st)
  /\ db st' = db st /\ disk st' = disk st.
Proof.
  refine (refused_caption_edit_ends_the_run
            Demo.uncaptioned 4 (Demo.started Demo.file) [] [] Demo.eagle
            (kilobytes 5000000) Demo.response_ok "4242" GraphAPIError
            eq_refl (Forall_nil _) eq_refl eq_refl _ eq_refl).
  exists [("id", JStr "4242")].
  split; [reflexivity|]. split; [reflexivity|].
  split; [discriminate | reflexivity].
Defined.

(** C8, the claim as worded fails: the publish call succeeds, the caption
    edit is refused, and the run ends in GraphAPIError with one publish call
    made, no record written to the history and nothing committed. *)
Lemma refused_caption_edit_loses_the_record :
  acceptance_filter Demo.uncaptioned Demo.file Demo.eagle
  = Accept (kilobytes 5000000)
  /\ requests_post Demo.uncaptioned post_url
       (payload_of Demo.uncaptioned (link Demo.eagle)) = inr Demo.response_ok
  /\ exists st,
       main Demo.uncaptioned 5 Demo.file = Crashed GraphAPIError st
       /\ publish_calls st = 1%nat
       /\ logged (db st) = logged Demo.file
       /\ disk st = Demo.file.
Proof.
  split; [reflexivity|]. split; [reflexivity|].
  eexists. split; [vm_compute; reflexivity|].
  split; [reflexivity|]. split; reflexivity.
Qed.

(** * Further properties of the script *)

(** ** Counting the calls of a stretch of a run *)

Lemma filter_none {A} (f : A -> bool) (l : list A) :
  Forall (fun x => f x = false) l -> filter f l = [].
Proof.
  induction 1 as [|x l Hx _ IH]; simpl; [reflexivity|].
  rewrite Hx. exact IH.
Qed.

Lemma calls_after (st st1 : State) (evs : list event) :
  trace st1 = trace st ++ evs ->
  publish_calls st1 = (publish_calls st + List.length (filter is_post evs))%nat
  /\ get_calls st1 = (get_calls st + List.length (filter is_get evs))%nat
  /\ next_page_requests st1
     = (next_page_requests st + List.length (filter is_next_page evs))%nat.
Proof.
  intros H. unfold publish_calls, get_calls, next_page_requests.
  rewrite H, !filter_app, !length_app. repeat split.
Qed.

Lemma get_calls_emit (e : event) (st : State) :
  get_calls (emit e st) = (get_calls st + if is_get e then 1 else 0)%nat.
Proof.
  unfold get_calls, emit; simpl.
  rewrite filter_app, length_app. simpl.
  destruct (is_get e); reflexivity.
Qed.

(** ** The ways through [publish] *)

Section Publish.

Variable w : World.

Ltac ended :=
  eexists; eexists; split;
  [right; eexists; reflexivity
  |split;
   [cbn [trace emit]; rewrite <- ?app_assoc; reflexivity
   |split; [repeat constructor | repeat split]]].

(** [publish] starts with the publish call, makes no size probe and asks
    for no page, leaves the database alone, and ends in an exception, but
    for one way on to the next candidate: the answer carries an identifier
    that its text does not show. *)
Lemma publish_cases (video : Video) (video_file_size : Q) (continue_ : M row)
  (st : State) :
  exists st1 tail,
    ((unseen_post_id w (link video)
      /\ publish w video video_file_size continue_ st = continue_ st1)
     \/ exists e, publish w video video_file_size continue_ st = Raise e st1)
    /\ trace st1
       = trace st ++ Post post_url (payload_of w (link video)) :: tail
    /\ Forall (fun e => is_post e = false /\ is_get e = false
                        /\ is_next_page e = false /\ is_search e = false)
              tail
    /\ db st1 = db st /\ disk st1 = disk st
    /\ term st1 = term st /\ page st1 = page st.
Proof.
  remember (publish w video video_file_size continue_ st) as o eqn:Ho.
  unfold publish in Ho. unfold bind at 1 in Ho. rewrite post_to_fb_eq in Ho.
  destruct (requests_post w post_url (payload_of w (link video)))
    as [e|resp] eqn:Hpost; cbn [lift raise ret] in Ho; [subst o; ended|].
  unfold bind at 1 in Ho. rewrite get_post_id_from_json_eq in Ho.
  destruct (json_loads w resp) as [e|j] eqn:Hjson; [subst o; ended|].
  destruct j as [| | | | | |items]; try (subst o; ended).
  destruct (dict_get items "id") as [v|] eqn:Hid; [|subst o; ended].
  destruct (truthy v) eqn:Hv; [|subst o; ended].
  destruct v as [| | | |pid| |]; try (subst o; ended).
  destruct (str_in pid resp) eqn:Hin; cbn [negb] in Ho.
  2:{ subst o. eexists; eexists. split.
      - left. split; [|reflexivity].
        exists resp, items, pid. repeat split; try assumption.
        intros ->. discriminate.
      - split; [cbn [trace emit]; reflexivity|].
        split; [constructor | repeat split]. }
  unfold bind, print, tell in Ho. rewrite edit_fb_post_caption_eq in Ho.
  cbv zeta in Ho.
  destruct (put_object w (parent_object_of pid) EmptyString (message_of video))
    as [e|[]]; [subst o; ended|].
  match type of Ho with
  | context [log_to_DB _ ?t ?s] =>
      destruct (log_to_DB_nine w t s eq_refl) as [Hlog|Hlog];
        rewrite Hlog in Ho
  end; subst o; ended.
Qed.

End Publish.

Section Pages.

Variable w : World.

(** [publish_cases] in numbers. *)
Lemma publish_counts (video : Video) (video_file_size : Q) (continue_ : M row)
  (st : State) :
  exists st1,
    ((unseen_post_id w (link video)
      /\ publish w video video_file_size continue_ st = continue_ st1)
     \/ exists e, publish w video video_file_size continue_ st = Raise e st1)
    /\ publish_calls st1 = S (publish_calls st)
    /\ get_calls st1 = get_calls st
    /\ db st1 = db st.
Proof.
  destruct (publish_cases w video video_file_size continue_ st)
    as (st1 & tail & Hcase & Htrace & Htail & Hdb & _).
  exists st1. split; [exact Hcase|].
  destruct (calls_after st st1 _ Htrace) as (Hp & Hg & _).
  simpl in Hp, Hg.
  rewrite (filter_none is_post tail) in Hp
    by (eapply Forall_impl; [|exact Htail]; intros e He; apply He).
  rewrite (filter_none is_get tail) in Hg
    by (eapply Forall_impl; [|exact Htail]; intros e He; apply He).
  simpl in Hp, Hg. repeat split; first [lia | assumption].
Qed.

(** What [process_videos] adds to the trace: no search and no request for a
    page, and no publish call but for a candidate of the page that the
    filter accepts. *)
Lemma process_videos_events (videos : list Video) (st : State) :
  exists evs,
    trace (final_state (process_videos w videos st)) = trace st ++ evs
    /\ Forall (fun e => is_next_page e = false /\ is_search e = false) evs
    /\ Forall (fun e => is_post e = true ->
                 exists v size,
                   In v videos
                   /\ acceptance_filter w (db st) v = Accept size
                   /\ e = Post post_url (payload_of w (link v))) evs.
Proof.
  revert st. induction videos as [|v videos IH]; intros st.
  - exists []. simpl. rewrite app_nil_r. repeat split; constructor.
  - simpl process_videos. rewrite process_video_decision.
    destruct (acceptance_filter w (db st) v) as [size|why|e] eqn:Hdec.
    + destruct (publish_cases w v size (process_videos w videos)
                              (emit (Get (url v)) st))
        as (st1 & tail & Hcase & Htrace & Htail & Hdb & _).
      simpl in Htrace, Hdb.
      assert (Htail1 : Forall (fun e => is_next_page e = false
                                        /\ is_search e = false) tail).
      { eapply Forall_impl; [|exact Htail].
        intros e (_ & _ & Hn & Hs). split; assumption. }
      assert (Htail2 : Forall (fun e => is_post e = true ->
                          exists v0 size0,
                            In v0 (v :: videos)
                            /\ acceptance_filter w (db st) v0 = Accept size0
                            /\ e = Post post_url (payload_of w (link v0))) tail).
      { eapply Forall_impl; [|exact Htail].
        intros e (He & _) Hpost. congruence. }
      assert (Hhere : is_post (Post post_url (payload_of w (link v))) = true ->
                exists v0 size0,
                  In v0 (v :: videos)
                  /\ acceptance_filter w (db st) v0 = Accept size0
                  /\ Post post_url (payload_of w (link v))
                     = Post post_url (payload_of w (link v0))).
      { intros _. exists v, size. split; [left; reflexivity|]. split; auto. }
      destruct Hcase as [[_ Heq]|[e Heq]]; rewrite Heq.
      * destruct (IH st1) as (evs & Hevs & Hnext & Hposts).
        exists (Get (url v) :: Post post_url (payload_of w (link v))
                  :: tail ++ evs).
        split; [rewrite Hevs, Htrace, <- !app_assoc; reflexivity|].
        split.
        { constructor; [split; reflexivity|].
          constructor; [split; reflexivity|].
          apply Forall_app. split; assumption. }
        constructor; [discriminate|]. constructor; [exact Hhere|].
        apply Forall_app. split; [exact Htail2|].
        eapply Forall_impl; [|exact Hposts].
        intros e He Hpost. destruct (He Hpost) as (v0 & size0 & Hin & Hacc & ->).
        exists v0, size0. split; [right; exact Hin|]. split; [|reflexivity].
        rewrite <- Hdb. exact Hacc.
      * exists (Get (url v) :: Post post_url (payload_of w (link v)) :: tail).
        simpl final_state.
        split; [rewrite Htrace, <- !app_assoc; reflexivity|].
        split.
        { constructor; [split; reflexivity|].
          constructor; [split; reflexivity|]. assumption. }
        constructor; [discriminate|]. constructor; [exact Hhere | exact Htail2].
    + destruct (IH (emit (Get (url v)) st)) as (evs & Hevs & Hnext & Hposts).
      exists (Get (url v) :: evs).
      split; [rewrite Hevs; simpl; rewrite <- app_assoc; reflexivity|].
      split; [constructor; [split; reflexivity | assumption]|].
      constructor; [discriminate|].
      eapply Forall_impl; [|exact Hposts].
      intros e0 He Hpost. destruct (He Hpost) as (v0 & size0 & Hin & Hacc & ->).
      exists v0, size0. split; [right; exact Hin|]. split; [exact Hacc | reflexivity].
    + exists [Get (url v)]. simpl.
      split; [reflexivity|].
      split; constructor; try constructor; try split; try reflexivity;
        discriminate.
Qed.

(** The same over the pages of a run: no second search, and no publish
    call but for an accepted candidate of a page of the term. *)
Lemma main_loop_events (fuel : nat) (st : State) :
  exists evs,
    trace (run_state (main_loop w fuel st)) = trace st ++ evs
    /\ Forall (fun e => is_post e = true ->
                 exists p v size,
                   In v (video_entries w (term st) p)
                   /\ acceptance_filter w (db st) v = Accept size
                   /\ e = Post post_url (payload_of w (link v))) evs
    /\ Forall (fun e => is_search e = false) evs.
Proof.
  revert st. induction fuel as [|fuel IH]; intros st.
  - exists []. simpl. rewrite app_nil_r. repeat split; constructor.
  - simpl main_loop.
    destruct (process_videos_events (get_video_entries w st) st)
      as (evs & Hevs & Hkinds & Hposts).
    destruct (process_videos_frame w (get_video_entries w st) st)
      as (Hdone & Hdb & _ & Hterm & _).
    assert (Hposts' : Forall (fun e => is_post e = true ->
                         exists p v size,
                           In v (video_entries w (term st) p)
                           /\ acceptance_filter w (db st) v = Accept size
                           /\ e = Post post_url (payload_of w (link v))) evs).
    { eapply Forall_impl; [|exact Hposts].
      intros e He Hpost. destruct (He Hpost) as (v & size & Hin & Hacc & ->).
      exists (page st), v, size. repeat split; assumption. }
    assert (Hsearch : Forall (fun e => is_search e = false) evs).
    { eapply Forall_impl; [|exact Hkinds]. intros e (_ & He). exact He. }
    destruct (process_videos w (get_video_entries w st) st) as [done st1|e st1].
    + rewrite (Hdone done st1 eq_refl). simpl in Hevs, Hdb, Hterm.
      destruct (IH (search_next_page st1)) as (evs' & Hevs' & Hposts1 & Hsearch1).
      exists (evs ++ SearchNextPage :: evs').
      split.
      { rewrite Hevs'. simpl. rewrite Hevs, <- !app_assoc. reflexivity. }
      split.
      { apply Forall_app. split; [exact Hposts'|].
        constructor; [discriminate|].
        eapply Forall_impl; [|exact Hposts1].
        intros e He Hpost. simpl in He. rewrite Hdb, Hterm in He.
        exact (He Hpost). }
      apply Forall_app. split; [exact Hsearch|].
      constructor; [reflexivity | exact Hsearch1].
    + exists evs. simpl in *. repeat split; assumption.
Qed.

End Pages.

(** [main] up to its loop: an IndexError when there is no search term to
    choose, the state of a fresh search otherwise. *)
Lemma main_eq (w : World) (fuel : nat) (file : Database) :
  main w fuel file
  = match nth_error (search_terms_of file)
                    (random_choice w (List.length (search_terms_of file))) with
    | Some t => main_loop w fuel (searching file (py_str w t))
    | None => Crashed IndexError (connect file)
    end.
Proof.
  unfold main, get_search_terms, bind, fetchall, choice, search_terms_of.
  simpl.
  destruct (nth_error _ _); reflexivity.
Qed.

(** ** The rules, one by one *)

(** X1: [no_badwords] compares the strings of its list as they are given:
    it answers False exactly when one of them equals a text cell of the
    [Bad_Words] table (any column, any row), with the case it has.  Its own
    [for word in sentence: word.lower()] changes nothing, and it leaves the
    state alone. *)
Theorem no_badwords_compares_as_given (sentence : list str) (st : State) :
  exists clean,
    no_badwords sentence st = Ret clean st
    /\ (clean = false
        <-> exists s,
              In s sentence
              /\ In (SqlText s) (List.concat (rows (Bad_Words (db st))))).
Proof.
  rewrite no_badwords_eq. unfold bad_word_free, query_all. simpl get_table.
  cbn [lift ret]. eexists. split; [reflexivity|].
  rewrite negb_false_iff, existsb_exists. split.
  - intros (word & Hword & Hex).
    apply existsb_sqlval_eq_str in Hex as (s & -> & Hin).
    exists s. split; assumption.
  - intros (s & Hin & Hbad).
    exists (SqlText s). split; [exact Hbad|].
    apply existsb_sqlval_eq_str. exists s. split; [reflexivity | exact Hin].
Qed.

Lemma str_length_app (a b : str) :
  String.length (a ++ b) = (String.length a + String.length b)%nat.
Proof. induction a as [|c a IH]; simpl; [reflexivity | rewrite IH; reflexivity]. Qed.

(** X2: an extension of fewer than three characters, the empty one among
    them, is never acceptable. *)
Theorem short_extension_not_acceptable (video_extension : str) :
  (String.length video_extension < 3)%nat ->
  acceptable_extension video_extension = false.
Proof.
  intros Hlen. destruct (acceptable_extension video_extension) eqn:Hacc;
    [|reflexivity].
  apply acceptable_extension_iff in Hacc as (e & a & b & He & Heq).
  rewrite Heq, !str_length_app in Hlen.
  assert (He3 : String.length e = 3%nat).
  { simpl in He. destruct He as [<-|[<-|[<-|[<-|[]]]]]; reflexivity. }
  lia.
Qed.

(** X2, at work: the empty extension and [mp]. *)
Lemma short_extension_at_work :
  acceptable_extension EmptyString = false /\ acceptable_extension "mp" = false.
Proof.
  split.
  - apply (short_extension_not_acceptable EmptyString). simpl. lia.
  - apply (short_extension_not_acceptable "mp"). simpl. lia.
Defined.

(** X3: [get_post_id_from_json] has no answer of its own for a text that is
    not a JSON object: the exception of the decoder passes through, and a
    decoded list, string, number, boolean or null has no [get], which is an
    AttributeError.  The state is as before in both cases. *)
Theorem get_post_id_from_json_errors (w : World) (request : str) (st : State) :
  (forall e, json_loads w request = inl e ->
     get_post_id_from_json w request st = Raise e st)
  /\ (forall j, json_loads w request = inr j -> is_object j = false ->
        get_post_id_from_json w request st = Raise AttributeError st).
Proof.
  split.
  - intros e H. rewrite get_post_id_from_json_eq, H. reflexivity.
  - intros j H Hobj. rewrite get_post_id_from_json_eq, H.
    destruct j; try reflexivity. discriminate.
Qed.

(** X3, at work: a list of two numbers, and an object that is not closed. *)
Lemma get_post_id_from_json_errors_at_work :
  let st := Demo.started Demo.file in
  get_post_id_from_json Demo.good "[1, 2]" st = Raise AttributeError st
  /\ get_post_id_from_json Demo.good "{" st = Raise JSONDecodeError st.
Proof.
  cbv zeta. split.
  - exact (proj2 (get_post_id_from_json_errors Demo.good "[1, 2]"
                    (Demo.started Demo.file))
                 (JList [JInt 1; JInt 2]) eq_refl eq_refl).
  - exact (proj1 (get_post_id_from_json_errors Demo.good "{"
                    (Demo.started Demo.file))
                 JSONDecodeError eq_refl).
Defined.

(** X10: the five rules decide together.  Once the probe gave a length and
    the two queries answered, a candidate reaches the publish step exactly
    when its extension is acceptable, its ID is new, its size is below
    1_000_000, its duration is below 1200 and its description is clean; in
    every other case the loop goes on with the next candidate, and in both
    cases the probe is all that came before. *)
Theorem five_rules_decide (w : World) (video : Video) (rest : list Video)
  (st : State) (n : N) (in_db clean : bool) :
  requests_get w (url video) = inr (Some n) ->
  id_is_in_db w "Nature_Bot_Logged_FB_Posts" (str_of_int (id video)) st
  = Ret in_db st ->
  no_badwords (split space (lower (description video))) st = Ret clean st ->
  process_videos w (video :: rest) st
  = if acceptable_extension (extension video) && negb in_db
       && negb (Qle_bool 1000000 (kilobytes n))
       && (duration video <? 1200)%Z && clean
    then publish w video (kilobytes n) (process_videos w rest)
                 (emit (Get (url video)) st)
    else process_videos w rest (emit (Get (url video)) st).
Proof.
  intros Hget Hid Hclean.
  rewrite id_is_in_db_eq in Hid. apply lift_Ret_inv in Hid.
  rewrite no_badwords_eq in Hclean. apply lift_Ret_inv in Hclean.
  simpl process_videos. rewrite process_video_decision.
  unfold acceptance_filter. rewrite Hget.
  destruct (acceptable_extension (extension video)); [|reflexivity].
  rewrite Hid. destruct in_db; [reflexivity|].
  destruct (Qle_bool 1000000 (kilobytes n)); [reflexivity|].
  rewrite Z.ltb_antisym.
  destruct (1200 <=? duration video)%Z; [reflexivity|].
  rewrite Hclean. destruct clean; reflexivity.
Qed.

(** X10, at work: the eagle passes the five rules, the heron cut to 1500
    seconds does not. *)
Lemma five_rules_decide_at_work :
  let st := Demo.started Demo.file in
  process_videos Demo.good [Demo.eagle] st
  = publish Demo.good Demo.eagle (kilobytes 5000000)
            (process_videos Demo.good []) (emit (Get (url Demo.eagle)) st)
  /\ process_videos Demo.good [Demo.with_duration 1500 Demo.heron; Demo.eagle] st
     = process_videos Demo.good [Demo.eagle] (emit (Get (url Demo.heron)) st).
Proof.
  cbv zeta. split.
  - exact (five_rules_decide Demo.good Demo.eagle [] (Demo.started Demo.file)
             5000000%N false true eq_refl eq_refl eq_refl).
  - exact (five_rules_decide Demo.good (Demo.with_duration 1500 Demo.heron)
             [Demo.eagle] (Demo.started Demo.file)
             5000000%N false true eq_refl eq_refl eq_refl).
Defined.

Lemma too_large_in_bytes (n : N) :
  Qle_bool 1000000 (kilobytes n) = true <-> (1000000000 <= n)%N.
Proof.
  rewrite Qle_bool_iff. unfold kilobytes, Qle, Qdiv, Qmult, Qinv, inject_Z.
  simpl. lia.
Qed.

(** X11: in bytes, the size rule turns away exactly the files of
    1_000_000_000 bytes and more.  For a candidate with an acceptable
    extension and a new ID, the filter answers too-large exactly when the
    content length is at least that, and the loop then goes on with the
    next candidate. *)
Theorem too_large_from_a_gigabyte (w : World) (video : Video)
  (rest : list Video) (st : State) (n : N) :
  requests_get w (url video) = inr (Some n) ->
  acceptable_extension (extension video) = true ->
  id_is_in_db w "Nature_Bot_Logged_FB_Posts" (str_of_int (id video)) st
  = Ret false st ->
  (acceptance_filter w (db st) video = Reject too_large
   <-> (1000000000 <= n)%N)
  /\ ((1000000000 <= n)%N ->
      process_videos w (video :: rest) st
      = process_videos w rest (emit (Get (url video)) st)).
Proof.
  intros Hget Hext Hid.
  rewrite id_is_in_db_eq in Hid. apply lift_Ret_inv in Hid.
  assert (Hdec : acceptance_filter w (db st) video = Reject too_large
                 <-> (1000000000 <= n)%N).
  { rewrite <- too_large_in_bytes. unfold acceptance_filter.
    rewrite Hget, Hext, Hid. simpl negb. cbv iota.
    destruct (Qle_bool 1000000 (kilobytes n)); [split; reflexivity|].
    split; [|discriminate].
    destruct (1200 <=? duration video)%Z; [discriminate|].
    destruct (bad_word_free _ _) as [e|[|]]; discriminate. }
  split; [exact Hdec|]. intros Hn.
  simpl process_videos. rewrite process_video_decision.
  rewrite (proj2 Hdec Hn). reflexivity.
Qed.

(** X11, at work: a file of exactly 1_000_000_000 bytes. *)
Lemma too_large_from_a_gigabyte_at_work :
  let w := Demo.world (inr (Some 1000000000%N)) (inr Demo.response_ok)
                      (inr tt) (Demo.one_page []) in
  acceptance_filter w Demo.file Demo.eagle = Reject too_large
  /\ process_videos w [Demo.eagle; Demo.heron] (Demo.started Demo.file)
     = process_videos w [Demo.heron]
                      (emit (Get (url Demo.eagle)) (Demo.started Demo.file)).
Proof.
  cbv zeta.
  pose (H := too_large_from_a_gigabyte
               (Demo.world (inr (Some 1000000000%N)) (inr Demo.response_ok)
                           (inr tt) (Demo.one_page []))
               Demo.eagle [Demo.heron] (Demo.started Demo.file) 1000000000%N
               eq_refl eq_refl eq_refl).
  split.
  - apply (proj2 (proj1 H)). lia.
  - apply (proj2 H). lia.
Defined.

(** ** The publish step *)




(** X16: an identifier that is true in Python's sense but is not a string (a
    number, for one) is returned by [get_post_id_from_json] as it is, and the
    membership test of [process_videos] does not take it: the accepted
    candidate is published and the run of the page ends in TypeError right
    after the publish call. *)
Theorem identifier_that_is_no_string_ends_the_page (w : World) (video : Video)
  (rest : list Video) (video_file_size : Q) (st : State) (resp : str)
  (items : list (str * json)) (v : json) :
  acceptance_filter w (db st) video = Accept video_file_size ->
  requests_post w post_url (payload_of w (link video)) = inr resp ->
  json_loads w resp = inr (JDict items) ->
  dict_get items "id" = Some v ->
  truthy v = true ->
  is_string v = false ->
  get_post_id_from_json w resp st = Ret (Some v) st
  /\ process_videos w (video :: rest) st
     = Raise TypeError
         (emit (Post post_url (payload_of w (link video)))
            (emit (Get (url video)) st)).
Proof.
  intros Hacc Hpost Hjson Hid Hv Hstr. split.
  - rewrite get_post_id_from_json_eq, Hjson, Hid, Hv. reflexivity.
  - simpl process_videos. rewrite process_video_decision, Hacc.
    unfold publish. unfold bind at 1. rewrite post_to_fb_eq, Hpost.
    cbn [lift ret]. unfold bind at 1.
    rewrite get_post_id_from_json_eq, Hjson, Hid, Hv.
    destruct v; try reflexivity. discriminate.
Qed.

(** X16, at work: the publisher answers with the number 4242. *)
Lemma identifier_that_is_no_string_at_work :
  let st := Demo.started Demo.file in
  get_post_id_from_json Demo.numbered Demo.response_numeric_id st
  = Ret (Some (JInt 4242)) st
  /\ process_videos Demo.numbered [Demo.eagle; Demo.heron] st
     = Raise TypeError
         (emit (Post post_url (payload_of Demo.numbered (link Demo.eagle)))
            (emit (Get (url Demo.eagle)) st)).
Proof.
  exact (identifier_that_is_no_string_ends_the_page
           Demo.numbered Demo.eagle [Demo.heron] (kilobytes 5000000)
           (Demo.started Demo.file) Demo.response_numeric_id
           [("id", JInt 4242)] (JInt 4242)
           eq_refl eq_refl eq_refl eq_refl eq_refl eq_refl).
Defined.

(** When every identifier shows in its answer, [process_videos] makes no
    publish call, or makes one and ends in an exception. *)
Lemma process_videos_one_publish (w : World) (videos : list Video) (st : State) :
  ids_occur w ->
  publish_calls (final_state (process_videos w videos st)) = publish_calls st
  \/ (publish_calls (final_state (process_videos w videos st))
      = S (publish_calls st)
      /\ exists e st', process_videos w videos st = Raise e st').
Proof.
  intros Hocc. revert st. induction videos as [|v videos IH]; intros st.
  - left. reflexivity.
  - simpl process_videos. rewrite process_video_decision.
    pose proof (publish_calls_emit (Get (url v)) st) as Hc. simpl in Hc.
    destruct (acceptance_filter w (db st) v) as [size|why|e].
    + destruct (publish_counts w v size (process_videos w videos)
                               (emit (Get (url v)) st))
        as (st1 & [[Hun _]|[e Heq]] & Hp & _).
      * exfalso.
        destruct Hun as (resp & items & pid & Hpost & Hjson & Hid & _ & Hin).
        rewrite (Hocc _ resp items pid Hpost Hjson Hid) in Hin. discriminate.
      * right. rewrite Heq. simpl. split; [lia|]. exists e, st1. reflexivity.
    + destruct (IH (emit (Get (url v)) st)) as [H|[H Hr]].
      * left. lia.
      * right. split; [lia | exact Hr].
    + left. simpl. lia.
Qed.

(** X5: at most one publish call per run, as long as every string
    identifier of the publisher occurs in the text of its answer.  A run
    that has made its publish call has ended in an exception. *)
Theorem one_publish_call_when_ids_occur (w : World) (fuel : nat) (st : State) :
  ids_occur w ->
  (publish_calls (run_state (main_loop w fuel st)) <= S (publish_calls st))%nat
  /\ (publish_calls (run_state (main_loop w fuel st)) = S (publish_calls st) ->
      exists e st', main_loop w fuel st = Crashed e st').
Proof.
  intros Hocc. revert st. induction fuel as [|fuel IH]; intros st.
  - simpl. split; [lia | intros H; lia].
  - simpl main_loop.
    destruct (process_videos_one_publish w (get_video_entries w st) st Hocc)
      as [Hsame|[Hone (e & st' & Hraise)]].
    + destruct (process_videos_frame w (get_video_entries w st) st)
        as (Hdone & _).
      destruct (process_videos w (get_video_entries w st) st)
        as [done st1|e st1].
      * rewrite (Hdone done st1 eq_refl). simpl in Hsame.
        destruct (search_next_page_frame st1) as (_ & _ & _ & _ & Hc & _).
        destruct (IH (search_next_page st1)) as (Hle & Hcrash).
        rewrite Hc, Hsame in Hle, Hcrash. split; assumption.
      * simpl in *. split; [lia|]. intros _. exists e, st1. reflexivity.
    + rewrite Hraise in Hone |- *. simpl in *. split; [lia|].
      intros _. exists e, st'. reflexivity.
Qed.

(** X5, at work: the publisher of the demonstration answers with the
    identifier 4242 in plain text; five turns. *)
Lemma one_publish_call_at_work :
  (publish_calls (run_state (main_loop Demo.good 5 (Demo.started Demo.file)))
   <= S (publish_calls (Demo.started Demo.file)))%nat
  /\ (publish_calls (run_state (main_loop Demo.good 5 (Demo.started Demo.file)))
      = S (publish_calls (Demo.started Demo.file)) ->
      exists e st',
        main_loop Demo.good 5 (Demo.started Demo.file) = Crashed e st').
Proof.
  apply (one_publish_call_when_ids_occur Demo.good 5 (Demo.started Demo.file)).
  intros payload resp items post_id Hpost Hjson Hid.
  inversion Hpost; subst resp.
  vm_compute in Hjson. inversion Hjson; subst items.
  vm_compute in Hid. inversion Hid; subst post_id.
  reflexivity.
Defined.

(** X9: probes come first.  Over a page, [process_videos] makes at most one
    size probe per candidate and at most one publish call per probe, and
    when it returns, every candidate of the page has been probed. *)
Theorem probes_bound_publish_calls (w : World) (videos : list Video)
  (st : State) :
  let o := process_videos w videos st in
  (publish_calls (final_state o) + get_calls st
   <= publish_calls st + get_calls (final_state o))%nat
  /\ (get_calls (final_state o) <= get_calls st + List.length videos)%nat
  /\ (forall done st', o = Ret done st' ->
        get_calls st' = (get_calls st + List.length videos)%nat).
Proof.
  cbv zeta. revert st. induction videos as [|v videos IH]; intros st.
  - simpl. split; [lia|]. split; [lia|].
    intros done st' H. inversion H; subst. lia.
  - simpl process_videos. rewrite process_video_decision.
    pose proof (publish_calls_emit (Get (url v)) st) as Hc.
    pose proof (get_calls_emit (Get (url v)) st) as Hg.
    simpl in Hc, Hg.
    destruct (acceptance_filter w (db st) v) as [size|why|e].
    + destruct (publish_counts w v size (process_videos w videos)
                               (emit (Get (url v)) st))
        as (st1 & [[_ Heq]|[e Heq]] & Hp1 & Hg1 & _); rewrite Heq.
      * destruct (IH st1) as (H1 & H2 & H3).
        split; [lia|]. split; [simpl; lia|].
        intros done st' H. rewrite (H3 done st' H). simpl. lia.
      * simpl. split; [lia|]. split; [lia|]. discriminate.
    + destruct (IH (emit (Get (url v)) st)) as (H1 & H2 & H3).
      split; [lia|]. split; [simpl; lia|].
      intros done st' H. rewrite (H3 done st' H). simpl. lia.
    + simpl. split; [lia|]. split; [lia|]. discriminate.
Qed.

(** ** The whole of [main] *)


(** X6: no run of [main] comes to its end, and none writes.  After any
    number of turns [main] has ended in an exception or is still in its
    loop, and the connection and the database file hold what the file held
    at the start. *)
Theorem main_never_finishes_nor_writes (w : World) (fuel : nat)
  (file : Database) :
  exists st,
    ((exists e, main w fuel file = Crashed e st)
     \/ main w fuel file = Unfinished st)
    /\ db st = file /\ disk st = file.
Proof.
  rewrite main_eq.
  destruct (nth_error (search_terms_of file)
                      (random_choice w (List.length (search_terms_of file))))
    as [t|].
  - destruct (main_loop_frame w fuel (searching file (py_str w t)))
      as (Hfin & Hdb & Hdisk).
    simpl in Hdb, Hdisk.
    destruct (main_loop w fuel (searching file (py_str w t))) as [st|e st|st].
    + exfalso. exact (Hfin st eq_refl).
    + exists st. split; [left; exists e; reflexivity|]. split; assumption.
    + exists st. split; [right; reflexivity|]. split; assumption.
  - exists (connect file). split; [left; exists IndexError; reflexivity|].
    split; reflexivity.
Qed.

(** X7: with a [Photo_Search_Terms] table that holds no cell, [main] ends
    in the IndexError of [random.choice] before it has searched, probed or
    published anything. *)
Theorem main_without_search_terms (w : World) (fuel : nat) (file : Database) :
  search_terms_of file = [] ->
  main w fuel file = Crashed IndexError (connect file)
  /\ trace (connect file) = [].
Proof.
  intros Hnone. rewrite main_eq, Hnone. simpl.
  destruct (random_choice w 0); split; reflexivity.
Qed.

(** X7, at work: the demonstration file without its search terms. *)
Lemma main_without_search_terms_at_work :
  main Demo.good 5 Demo.file_without_terms
  = Crashed IndexError (connect Demo.file_without_terms)
  /\ trace (connect Demo.file_without_terms) = [].
Proof.
  exact (main_without_search_terms Demo.good 5 Demo.file_without_terms eq_refl).
Defined.

(** Over the turns of the loop the search term stays and the page cursor
    moves with the requests for a further page, one per turn at most. *)
Lemma main_loop_cursor (w : World) (fuel : nat) (st : State) :
  term (run_state (main_loop w fuel st)) = term st
  /\ (page (run_state (main_loop w fuel st)) + next_page_requests st
      = page st + next_page_requests (run_state (main_loop w fuel st)))%nat
  /\ (next_page_requests (run_state (main_loop w fuel st))
      <= next_page_requests st + fuel)%nat.
Proof.
  revert st. induction fuel as [|fuel IH]; intros st.
  - simpl. repeat split; lia.
  - simpl main_loop.
    destruct (process_videos_frame w (get_video_entries w st) st)
      as (Hdone & _ & _ & Hterm & Hpage & Hnext & _).
    destruct (process_videos w (get_video_entries w st) st) as [done st1|e st1].
    + rewrite (Hdone done st1 eq_refl). simpl in Hterm, Hpage, Hnext.
      destruct (search_next_page_frame st1) as (_ & _ & Ht & Hp & _ & Hn).
      destruct (IH (search_next_page st1)) as (H1 & H2 & H3).
      repeat split; first [congruence | lia].
    + simpl in *. repeat split; first [congruence | lia].
Qed.

(** X8: a run searches once, for one term.  [main] calls [search_video]
    one time, first of all, with [str] of the cell of [Photo_Search_Terms]
    that [random.choice] picked, page 1 and 15 results per page; no later
    turn of the loop searches again, and each turn asks for a further page
    at most once. *)
Theorem main_keeps_its_term_and_counts_pages (w : World) (fuel : nat)
  (file : Database) (t : sqlval) :
  nth_error (search_terms_of file)
            (random_choice w (List.length (search_terms_of file))) = Some t ->
  In t (search_terms_of file)
  /\ hd_error (trace (run_state (main w fuel file)))
     = Some (SearchVideo (py_str w t) 1 15)
  /\ search_calls (run_state (main w fuel file)) = 1%nat
  /\ (next_page_requests (run_state (main w fuel file)) <= fuel)%nat.
Proof.
  intros Ht. rewrite main_eq, Ht. apply nth_error_In in Ht.
  destruct (main_loop_cursor w fuel (searching file (py_str w t)))
    as (_ & _ & H3).
  destruct (main_loop_events w fuel (searching file (py_str w t)))
    as (evs & Hevs & _ & Hsearch).
  change (next_page_requests (searching file (py_str w t))) with 0%nat in H3.
  split; [exact Ht|]. split; [rewrite Hevs; reflexivity|].
  split; [|exact H3].
  unfold search_calls. rewrite Hevs. simpl.
  replace (filter is_search evs) with (@nil event); [reflexivity|].
  clear Hevs. induction Hsearch as [|e evs He _ IH]; [reflexivity|].
  simpl. rewrite He. exact IH.
Qed.

(** X8, at work: the first term of the demonstration file, three turns. *)
Lemma main_keeps_its_term_at_work :
  In (SqlText "birds") (search_terms_of Demo.file)
  /\ hd_error (trace (run_state (main Demo.nothing_accepted 3 Demo.file)))
     = Some (SearchVideo "birds" 1 15)
  /\ search_calls (run_state (main Demo.nothing_accepted 3 Demo.file)) = 1%nat
  /\ (next_page_requests (run_state (main Demo.nothing_accepted 3 Demo.file))
      <= 3)%nat.
Proof.
  exact (main_keeps_its_term_and_counts_pages
           Demo.nothing_accepted 3 Demo.file (SqlText "birds") eq_refl).
Defined.

(** ** The log *)

(** X12: a record that [log_to_DB] takes is found again.  On a plain
    history table, when [log_to_DB] returns, its tuple had ten values and is
    the last row of the history, the other tables are as before, and
    nothing is committed yet.  From then on, for an identifier as
    [process_videos] passes it, the text [str] of an integer, and as long as
    that text is not the name of a column of the table, [id_is_in_db]
    answers True for the identifier in the [ID] cell of the tuple, and still
    does for every such identifier it found before. *)
Theorem log_to_DB_then_id_is_in_db (w : World) (formatted_tuple : row)
  (st st' : State) :
  plain (Nature_Bot_Logged_FB_Posts (db st)) = true ->
  log_to_DB w formatted_tuple st = Ret tt st' ->
  List.length formatted_tuple = 10%nat
  /\ logged (db st') = logged (db st) ++ [formatted_tuple]
  /\ Bad_Words (db st') = Bad_Words (db st)
  /\ Photo_Search_Terms (db st') = Photo_Search_Terms (db st)
  /\ disk st' = disk st /\ trace st' = trace st
  /\ (forall i z,
        column_index "ID" (columns (Nature_Bot_Logged_FB_Posts (db st)))
        = Some i ->
        names_column (str_of_int z)
                     (columns (Nature_Bot_Logged_FB_Posts (db st))) = false ->
        nth i formatted_tuple SqlNull = SqlText (str_of_int z) ->
        id_is_in_db w "Nature_Bot_Logged_FB_Posts" (str_of_int z) st'
        = Ret true st')
  /\ (forall z,
        names_column (str_of_int z)
                     (columns (Nature_Bot_Logged_FB_Posts (db st))) = false ->
        id_is_in_db w "Nature_Bot_Logged_FB_Posts" (str_of_int z) st
        = Ret true st ->
        id_is_in_db w "Nature_Bot_Logged_FB_Posts" (str_of_int z) st'
        = Ret true st').
Proof.
  intros Hplain Hlog. unfold log_to_DB, insert_values in Hlog.
  rewrite get_table_logged in Hlog.
  destruct (negb (List.length (columns (Nature_Bot_Logged_FB_Posts (db st)))
                  =? 10)%nat); [discriminate|].
  destruct (List.length formatted_tuple =? 10)%nat eqn:Hten;
    simpl in Hlog; [|discriminate].
  rewrite Hplain in Hlog.
  apply Nat.eqb_eq in Hten. inversion Hlog; subst st'; clear Hlog.
  set (st' := with_db
                (set_table "Nature_Bot_Logged_FB_Posts"
                   {| columns := columns (Nature_Bot_Logged_FB_Posts (db st));
                      plain := true;
                      rows := rows (Nature_Bot_Logged_FB_Posts (db st))
                              ++ [formatted_tuple] |} (db st)) st).
  assert (Hcols : columns (Nature_Bot_Logged_FB_Posts (db st'))
                  = columns (Nature_Bot_Logged_FB_Posts (db st)))
    by reflexivity.
  assert (Hids : logged_ids (db st')
                 = match column_index "ID"
                           (columns (Nature_Bot_Logged_FB_Posts (db st))) with
                   | None => []
                   | Some i => logged_ids (db st)
                               ++ [nth i formatted_tuple SqlNull]
                   end).
  { unfold logged_ids, logged. simpl.
    destruct (column_index "ID" (columns (Nature_Bot_Logged_FB_Posts (db st))));
      [rewrite map_app|]; reflexivity. }
  split; [exact Hten|]. split; [reflexivity|]. split; [reflexivity|].
  split; [reflexivity|]. split; [reflexivity|]. split; [reflexivity|].
  split.
  - intros i z Hcol Hname Hcell.
    apply (proj2 (id_is_in_db_iff_logged w _ st' eq_refl
                    (is_decimal_str_of_int z)
                    (eq_trans (f_equal _ Hcols) Hname))).
    rewrite Hids, Hcol, Hcell. apply in_or_app. right. left. reflexivity.
  - intros z Hname Hs.
    apply (proj1 (id_is_in_db_iff_logged w _ st Hplain
                    (is_decimal_str_of_int z) Hname)) in Hs.
    apply (proj2 (id_is_in_db_iff_logged w _ st' eq_refl
                    (is_decimal_str_of_int z)
                    (eq_trans (f_equal _ Hcols) Hname))).
    rewrite Hids.
    unfold logged_ids in Hs |- *.
    destruct (column_index "ID" (columns (Nature_Bot_Logged_FB_Posts (db st))));
      [|exact Hs].
    apply in_or_app. left. exact Hs.
Qed.

(** X12, at work: a record of ten values for video 55 goes into the
    demonstration file; 55 is found afterwards, and so is 22. *)
Lemma log_to_DB_then_id_is_in_db_at_work :
  exists st',
    log_to_DB Demo.good Demo.ten_values (Demo.started Demo.file) = Ret tt st'
    /\ logged (db st') = logged Demo.file ++ [Demo.ten_values]
    /\ disk st' = Demo.file
    /\ id_is_in_db Demo.good "Nature_Bot_Logged_FB_Posts" (str_of_int 55) st'
       = Ret true st'
    /\ id_is_in_db Demo.good "Nature_Bot_Logged_FB_Posts" (str_of_int 22) st'
       = Ret true st'
    /\ id_is_in_db Demo.good "Nature_Bot_Logged_FB_Posts" (str_of_int 55)
                   (Demo.started Demo.file)
       = Ret false (Demo.started Demo.file).
Proof.
  eexists. split; [reflexivity|].
  pose (H := log_to_DB_then_id_is_in_db Demo.good Demo.ten_values
               (Demo.started Demo.file) _ eq_refl eq_refl).
  split; [exact (proj1 (proj2 H))|].
  split; [exact (proj1 (proj2 (proj2 (proj2 (proj2 H)))))|].
  split; [exact (proj1 (proj2 (proj2 (proj2 (proj2 (proj2 (proj2 H))))))
                   4%nat 55%Z eq_refl eq_refl eq_refl)|].
  split; [exact (proj2 (proj2 (proj2 (proj2 (proj2 (proj2 (proj2 H))))))
                   22%Z eq_refl eq_refl)|].
  reflexivity.
Defined.

(** X13: [log_to_DB] takes tuples of ten values only.  Any other tuple is
    refused by the cursor with the state as it was, and the tuple that
    [process_videos] builds has nine. *)
Theorem log_to_DB_wants_ten_values (w : World) (video : Video) (resp : str)
  (video_file_size : Q) (formatted_tuple : row) (st : State) :
  List.length formatted_tuple <> 10%nat ->
  (log_to_DB w formatted_tuple st = Raise OperationalError st
   \/ log_to_DB w formatted_tuple st = Raise ProgrammingError st)
  /\ List.length (data_to_log_of w video resp video_file_size) = 9%nat.
Proof.
  intros Hlen. split; [|reflexivity].
  unfold log_to_DB, insert_values. rewrite get_table_logged.
  destruct (negb (List.length (columns (Nature_Bot_Logged_FB_Posts (db st)))
                  =? 10)%nat); [left; reflexivity|].
  apply Nat.eqb_neq in Hlen. rewrite Hlen. right. reflexivity.
Qed.

(** X13, at work: the tuple that [process_videos] builds for the eagle. *)
Lemma log_to_DB_wants_ten_values_at_work :
  let t := data_to_log_of Demo.good Demo.eagle Demo.response_ok
                          (kilobytes 5000000) in
  (log_to_DB Demo.good t (Demo.started Demo.file)
   = Raise OperationalError (Demo.started Demo.file)
   \/ log_to_DB Demo.good t (Demo.started Demo.file)
      = Raise ProgrammingError (Demo.started Demo.file))
  /\ List.length t = 9%nat.
Proof.
  cbv zeta.
  apply (log_to_DB_wants_ten_values Demo.good Demo.eagle Demo.response_ok
           (kilobytes 5000000)
           (data_to_log_of Demo.good Demo.eagle Demo.response_ok
                           (kilobytes 5000000))
           (Demo.started Demo.file)).
  simpl. lia.
Defined.

(** ** The caption *)

Lemma str_app_assoc (a b c : str) : ((a ++ b) ++ c = a ++ b ++ c)%string.
Proof. induction a as [|x a IH]; simpl; [reflexivity | rewrite IH; reflexivity]. Qed.

(** X14: the caption credits the source.  The one call that
    [edit_fb_post_caption] makes edits the post of the page, named by the
    page number, an underscore and the post identifier, with an empty
    connection name and a message that holds the description, the permalink
    and the address of the project as they are; a refusal of that call
    leaves the function as an exception, the database untouched either way. *)
Theorem caption_credits_the_source (w : World)
  (post_id video_description video_permalink : str) (st : State) :
  exists message,
    nth_error
      (trace (final_state
                (edit_fb_post_caption w post_id video_description
                                      video_permalink st)))
      (List.length (trace st))
    = Some (PutObject ("101111365975816_" ++ post_id)%string EmptyString message)
    /\ str_in video_description message = true
    /\ str_in video_permalink message = true
    /\ str_in "https://github.com/Voltaic314/Nature-Poster" message = true
    /\ db (final_state
             (edit_fb_post_caption w post_id video_description
                                   video_permalink st)) = db st
    /\ (forall e,
          put_object w ("101111365975816_" ++ post_id)%string EmptyString message
          = inl e ->
          edit_fb_post_caption w post_id video_description video_permalink st
          = Raise e
              (emit (PutObject ("101111365975816_" ++ post_id)%string EmptyString
                               message) st)).
Proof.
  set (message :=
         ("Description: " ++ video_description ++ newline ++ newline
          ++ "Pexels image link: " ++ video_permalink ++ newline ++ newline
          ++ "P.S. This Facebook post was created by a bot. To learn more about how it works,"
          ++ " check out the GitHub page here: "
          ++ "https://github.com/Voltaic314/Nature-Poster")%string).
  exists message.
  assert (Heq : edit_fb_post_caption w post_id video_description video_permalink st
                = match put_object w ("101111365975816_" ++ post_id)%string
                                   EmptyString message with
                  | inl e =>
                      Raise e (emit (PutObject ("101111365975816_" ++ post_id)%string
                                               EmptyString message) st)
                  | inr _ =>
                      Ret tt
                        (emit (Print "Caption has been edited to post successfully.")
                           (emit (PutObject ("101111365975816_" ++ post_id)%string
                                            EmptyString message) st))
                  end).
  { unfold edit_fb_post_caption, bind, tell, lift, print, tell, ret, raise.
    cbv zeta. fold message.
    change ("101111365975816" ++ "_" ++ post_id)%string
      with ("101111365975816_" ++ post_id)%string.
    destruct (put_object w ("101111365975816_" ++ post_id)%string EmptyString message)
      as [e|[]]; reflexivity. }
  rewrite Heq.
  split.
  { destruct (put_object w _ EmptyString message) as [e|u]; simpl;
      rewrite <- ?app_assoc;
      rewrite nth_error_app2 by lia; rewrite Nat.sub_diag; reflexivity. }
  split.
  { apply str_in_iff. exists "Description: "%string. eexists. reflexivity. }
  split.
  { apply str_in_iff.
    exists ("Description: " ++ video_description ++ newline ++ newline
            ++ "Pexels image link: ")%string.
    eexists. unfold message. rewrite !str_app_assoc. reflexivity. }
  split.
  { apply str_in_iff.
    exists ("Description: " ++ video_description ++ newline ++ newline
            ++ "Pexels image link: " ++ video_permalink ++ newline ++ newline
            ++ "P.S. This Facebook post was created by a bot. To learn more about how it works,"
            ++ " check out the GitHub page here: ")%string, EmptyString.
    unfold message. rewrite !str_app_assoc. simpl.
    repeat f_equal. }
  split.
  { destruct (put_object w _ EmptyString message) as [e|u]; reflexivity. }
  intros e He. rewrite He. reflexivity.
Qed.

(** ** Empty tokens *)

Lemma lower_empty_piece (s : str) :
  In EmptyString (split space s) -> In EmptyString (split space (lower s)).
Proof.
  intros H. rewrite split_lower.
  change EmptyString with (lower EmptyString). apply in_map. exact H.
Qed.

(** A space that ends the string, or that another space follows, leaves an
    empty piece after the first one. *)
Lemma empty_piece_after (a b : str) :
  b = EmptyString \/ (exists b', b = String space b') ->
  In EmptyString (tl (split space (a ++ String space b)%string)).
Proof.
  intros Hb. induction a as [|c a IH].
  - change (EmptyString ++ String space b)%string with (String space b).
    cbn [split]. rewrite Ascii.eqb_refl. cbn [tl].
    destruct Hb as [->|[b' ->]].
    + left. reflexivity.
    + cbn [split]. rewrite Ascii.eqb_refl. left. reflexivity.
  - change (String c a ++ String space b)%string
      with (String c (a ++ String space b)%string).
    cbn [split]. destruct (Ascii.eqb c space).
    + cbn [tl].
      destruct (split space (a ++ String space b)%string) as [|p ps];
        [destruct IH | right; exact IH].
    + destruct (split space (a ++ String space b)%string) as [|p ps];
        [destruct IH | exact IH].
Qed.

(** X15: [split] gives an empty token for an empty description, for a space
    at either end and for two spaces in a row.  When the empty text is among
    the bad words, every such description is rejected by the content check,
    whatever its words are. *)
Theorem empty_bad_word_rejects_stray_spaces (video_description : str)
  (st : State) :
  In (SqlText EmptyString) (List.concat (rows (Bad_Words (db st)))) ->
  video_description = EmptyString
  \/ (exists b, video_description = String space b)
  \/ (exists a, video_description = (a ++ String space EmptyString)%string)
  \/ (exists a b,
        video_description = (a ++ String space (String space b))%string) ->
  In EmptyString (split space video_description)
  /\ no_badwords (split space (lower video_description)) st = Ret false st.
Proof.
  intros Hbad Hshape.
  assert (Hpiece : In EmptyString (split space video_description)).
  { destruct Hshape as [->|[[b ->]|[[a ->]|[a [b ->]]]]].
    - left. reflexivity.
    - cbn [split]. rewrite Ascii.eqb_refl. left. reflexivity.
    - pose proof (empty_piece_after a EmptyString (or_introl eq_refl)) as H.
      destruct (split space (a ++ String space EmptyString)%string);
        [destruct H|].
      right. exact H.
    - pose proof (empty_piece_after a (String space b)
                    (or_intror (ex_intro _ b eq_refl))) as H.
      destruct (split space (a ++ String space (String space b))%string);
        [destruct H|].
      right. exact H. }
  split; [exact Hpiece|].
  destruct (no_badwords_of_description video_description st)
    as (clean & Hrun & Hiff).
  rewrite Hrun. f_equal.
  apply Hiff. exists EmptyString, EmptyString.
  split; [exact Hpiece|]. split; [exact Hbad | reflexivity].
Qed.

(** X15, at work: a description with two spaces in a row, against a table
    that holds the empty text. *)
Lemma empty_bad_word_at_work :
  In EmptyString (split space "An eagle  over the hills")
  /\ no_badwords (split space (lower "An eagle  over the hills"))
                 (Demo.started Demo.file_with_empty_word)
     = Ret false (Demo.started Demo.file_with_empty_word).
Proof.
  apply (empty_bad_word_rejects_stray_spaces
           "An eagle  over the hills" (Demo.started Demo.file_with_empty_word)).
  - simpl. right. left. reflexivity.
  - right. right. right. exists "An eagle"%string, "over the hills"%string.
    reflexivity.
Defined.
